(** * JarvisX front-end ([src/App.jsx]): transcript assembly and window
      interactivity

    A shallow embedding of the stateful part of the React component [App]:
    the hooks of the component become one record, the event listeners and the
    click handlers become state transformers, and the [try]/[catch] blocks
    around the backend calls become a small state-and-exception monad.

    Conventions of the embedding.
    - A handler closes over the values of the render in which it was created
      ([isRecording], [inProgressTranscript], [clickThrough]); it is a
      function of that render snapshot.  Running a handler on the state it
      was rendered from is [fire].
    - A handler runs to completion before the next event is taken: nothing
      is interleaved at an [await].
    - The pause timer is the one pending [setTimeout] task: its remaining
      delay in milliseconds and the text its callback closed over.  Time
      passes through [elapse]; a task whose delay has run out fires.
    - Backend answers are given by a [Backend] record, one per handler run;
      the commands sent and the lines written with [console.error] are
      recorded in the two trace fields [invoked] and [console]. *)

From Stdlib Require Import String Ascii List Arith Lia.
From stdpp Require Import base list.
Import ListNotations.
Local Open Scope string_scope.
Local Open Scope list_scope.

(** ** JavaScript values used by the component *)

(** The line feed of ['\n']. *)
Definition LF : string := String (ascii_of_nat 10) EmptyString.

(** [if (text)] on a string: the empty string is the only falsy one. *)
Definition truthy (text : string) : bool :=
  match text with
  | EmptyString => false
  | String _ _ => true
  end.

(** [Array.prototype.join]. *)
Definition join (sep : string) (lines : list string) : string :=
  String.concat sep lines.

(** Outcome of an awaited call: the resolved value or the thrown error, the
    error already as the text [`${error}`] prints. *)
Inductive Result (A : Type) : Type :=
| Ok (a : A)
| Err (error : string).
Arguments Ok {A} a.
Arguments Err {A} error.

(** [activeTab] is ['transcript'] or ['ai']. *)
Inductive Tab : Type := TabTranscript | TabAi.

(** Calls that leave the front-end. *)
Inductive Command : Type :=
| resolve_resource (path : string)
| start_live_transcription (streamExePath modelPath : string)
| stop_live_transcription
| call_gemini_api (prompt : string)
| toggle_clickthrough (enable : bool).

(** What the backend answers during one handler run. *)
Record Backend : Type := {
  on_resolve_resource : string -> Result string;
  on_start_live_transcription : string -> string -> Result unit;
  on_stop_live_transcription : Result unit;
  on_call_gemini_api : string -> Result string;
  on_toggle_clickthrough : bool -> Result unit
}.

(** ** Component state *)

Record App : Type := {
  isRecording : bool;
  finalizedTranscript : list string;
  inProgressTranscript : string;
  aiResponse : string;
  generalQuery : string;
  status : string;
  clickThrough : bool;
  speechPauseTimer : option (nat * string);
  widgetOpen : bool;
  listenOpen : bool;
  activeTab : Tab;
  invoked : list Command;
  console : list string
}.

(** The values of the [useState] / [useRef] initialisers. *)
Definition initialApp : App := {|
  isRecording := false;
  finalizedTranscript := [];
  inProgressTranscript := "";
  aiResponse := "";
  generalQuery := "";
  status := "Ready.";
  clickThrough := true;
  speechPauseTimer := None;
  widgetOpen := true;
  listenOpen := false;
  activeTab := TabTranscript;
  invoked := [];
  console := []
|}.

(** *** Setters *)

Definition setIsRecording (v : bool) (s : App) : App :=
  {| isRecording := v;
     finalizedTranscript := finalizedTranscript s;
     inProgressTranscript := inProgressTranscript s;
     aiResponse := aiResponse s; generalQuery := generalQuery s;
     status := status s; clickThrough := clickThrough s;
     speechPauseTimer := speechPauseTimer s; widgetOpen := widgetOpen s;
     listenOpen := listenOpen s; activeTab := activeTab s;
     invoked := invoked s; console := console s |}.

(** [setFinalizedTranscript(prev => ...)]; a plain value is the constant
    updater. *)
Definition setFinalizedTranscript (f : list string -> list string) (s : App)
  : App :=
  {| isRecording := isRecording s;
     finalizedTranscript := f (finalizedTranscript s);
     inProgressTranscript := inProgressTranscript s;
     aiResponse := aiResponse s; generalQuery := generalQuery s;
     status := status s; clickThrough := clickThrough s;
     speechPauseTimer := speechPauseTimer s; widgetOpen := widgetOpen s;
     listenOpen := listenOpen s; activeTab := activeTab s;
     invoked := invoked s; console := console s |}.

Definition setInProgressTranscript (v : string) (s : App) : App :=
  {| isRecording := isRecording s;
     finalizedTranscript := finalizedTranscript s;
     inProgressTranscript := v;
     aiResponse := aiResponse s; generalQuery := generalQuery s;
     status := status s; clickThrough := clickThrough s;
     speechPauseTimer := speechPauseTimer s; widgetOpen := widgetOpen s;
     listenOpen := listenOpen s; activeTab := activeTab s;
     invoked := invoked s; console := console s |}.

Definition setAiResponse (v : string) (s : App) : App :=
  {| isRecording := isRecording s;
     finalizedTranscript := finalizedTranscript s;
     inProgressTranscript := inProgressTranscript s;
     aiResponse := v; generalQuery := generalQuery s;
     status := status s; clickThrough := clickThrough s;
     speechPauseTimer := speechPauseTimer s; widgetOpen := widgetOpen s;
     listenOpen := listenOpen s; activeTab := activeTab s;
     invoked := invoked s; console := console s |}.

Definition setStatus (v : string) (s : App) : App :=
  {| isRecording := isRecording s;
     finalizedTranscript := finalizedTranscript s;
     inProgressTranscript := inProgressTranscript s;
     aiResponse := aiResponse s; generalQuery := generalQuery s;
     status := v; clickThrough := clickThrough s;
     speechPauseTimer := speechPauseTimer s; widgetOpen := widgetOpen s;
     listenOpen := listenOpen s; activeTab := activeTab s;
     invoked := invoked s; console := console s |}.

Definition setClickThrough (v : bool) (s : App) : App :=
  {| isRecording := isRecording s;
     finalizedTranscript := finalizedTranscript s;
     inProgressTranscript := inProgressTranscript s;
     aiResponse := aiResponse s; generalQuery := generalQuery s;
     status := status s; clickThrough := v;
     speechPauseTimer := speechPauseTimer s; widgetOpen := widgetOpen s;
     listenOpen := listenOpen s; activeTab := activeTab s;
     invoked := invoked s; console := console s |}.

Definition setWidgetOpen (v : bool) (s : App) : App :=
  {| isRecording := isRecording s;
     finalizedTranscript := finalizedTranscript s;
     inProgressTranscript := inProgressTranscript s;
     aiResponse := aiResponse s; generalQuery := generalQuery s;
     status := status s; clickThrough := clickThrough s;
     speechPauseTimer := speechPauseTimer s; widgetOpen := v;
     listenOpen := listenOpen s; activeTab := activeTab s;
     invoked := invoked s; console := console s |}.

Definition setActiveTab (v : Tab) (s : App) : App :=
  {| isRecording := isRecording s;
     finalizedTranscript := finalizedTranscript s;
     inProgressTranscript := inProgressTranscript s;
     aiResponse := aiResponse s; generalQuery := generalQuery s;
     status := status s; clickThrough := clickThrough s;
     speechPauseTimer := speechPauseTimer s; widgetOpen := widgetOpen s;
     listenOpen := listenOpen s; activeTab := v;
     invoked := invoked s; console := console s |}.

(** Assignment to [speechPauseTimer.current] together with the timer queue:
    [None] after [clearTimeout] or after the task ran, [Some (delay, text)]
    after [setTimeout]. *)
Definition set_speechPauseTimer (v : option (nat * string)) (s : App) : App :=
  {| isRecording := isRecording s;
     finalizedTranscript := finalizedTranscript s;
     inProgressTranscript := inProgressTranscript s;
     aiResponse := aiResponse s; generalQuery := generalQuery s;
     status := status s; clickThrough := clickThrough s;
     speechPauseTimer := v; widgetOpen := widgetOpen s;
     listenOpen := listenOpen s; activeTab := activeTab s;
     invoked := invoked s; console := console s |}.

Definition record_invoked (c : Command) (s : App) : App :=
  {| isRecording := isRecording s;
     finalizedTranscript := finalizedTranscript s;
     inProgressTranscript := inProgressTranscript s;
     aiResponse := aiResponse s; generalQuery := generalQuery s;
     status := status s; clickThrough := clickThrough s;
     speechPauseTimer := speechPauseTimer s; widgetOpen := widgetOpen s;
     listenOpen := listenOpen s; activeTab := activeTab s;
     invoked := invoked s ++ [c]; console := console s |}.

Definition record_console (line : string) (s : App) : App :=
  {| isRecording := isRecording s;
     finalizedTranscript := finalizedTranscript s;
     inProgressTranscript := inProgressTranscript s;
     aiResponse := aiResponse s; generalQuery := generalQuery s;
     status := status s; clickThrough := clickThrough s;
     speechPauseTimer := speechPauseTimer s; widgetOpen := widgetOpen s;
     listenOpen := listenOpen s; activeTab := activeTab s;
     invoked := invoked s; console := console s ++ [line] |}.

(** ** Async handlers: state that survives a thrown error *)

Module Async.

Definition t (A : Type) : Type := App -> Result A * App.

Definition ret {A : Type} (a : A) : t A := fun s => (Ok a, s).

Definition bind {A B : Type} (m : t A) (k : A -> t B) : t B :=
  fun s =>
    match m s with
    | (Ok a, s') => k a s'
    | (Err e, s') => (Err e, s')
    end.

(** A statement that throws: the state is left as it is. *)
Definition throw {A : Type} (error : string) : t A := fun s => (Err error, s).

(** A state update ([setX(...)] or an assignment to a ref). *)
Definition update (f : App -> App) : t unit := fun s => (Ok tt, f s).

(** [await invoke(...)] and the other awaited calls: the command is sent,
    the backend's answer is the result. *)
Definition call {A : Type} (c : Command) (answer : Result A) : t A :=
  fun s => (answer, record_invoked c s).

Definition console_error (line : string) : t unit :=
  update (record_console line).

(** [try { body } catch (error) { handler }]. *)
Definition try_catch (body : t unit) (handler : string -> t unit) : t unit :=
  fun s =>
    match body s with
    | (Ok a, s') => (Ok a, s')
    | (Err e, s') => handler e s'
    end.

(** [try { body } catch (error) { handler } finally { final }]. *)
Definition try_catch_finally (body : t unit) (handler : string -> t unit)
    (final : t unit) : t unit :=
  fun s =>
    match try_catch body handler s with
    | (r, s') =>
        match final s' with
        | (Ok _, s'') => (r, s'')
        | (Err e, s'') => (Err e, s'')
        end
    end.

End Async.

Declare Scope async_scope.
Delimit Scope async_scope with async.
Notation "x <- m ;; k" := (Async.bind m (fun x => k))
  (at level 100, m at next level, right associativity) : async_scope.
Notation "m ;; k" := (Async.bind m (fun _ => k))
  (at level 100, right associativity) : async_scope.

(** A handler is created by a render and closes over that render's values. *)
Definition Handler : Type := App -> Async.t unit.

(** The handler of the current render runs on the current state. *)
Definition fire (h : Handler) (s : App) : App := snd (h s s).

(** ** Transcription listeners ([setupListeners]) and the pause timer *)

(** Delay given to [setTimeout] by the [new_transcription] listener. *)
Definition pauseDelay : nat := 1500.

(** The closure given to [setTimeout]: it knows the [text] of the event that
    scheduled it and nothing of the state at the time it runs. *)
Definition pauseCallback (text : string) (s : App) : App :=
  if truthy text
  then setInProgressTranscript ""
         (setFinalizedTranscript (fun prev => prev ++ [text]) s)
  else s.

(** Listener of ['new_transcription']. *)
Definition on_new_transcription (text : string) (s : App) : App :=
  let s1 := setInProgressTranscript text s in
  let s2 := set_speechPauseTimer None s1 in
  set_speechPauseTimer (Some (pauseDelay, text)) s2.

(** Listener of ['final_transcription']. *)
Definition on_final_transcription (text : string) (s : App) : App :=
  let s1 :=
    if truthy text
    then setFinalizedTranscript (fun prev => prev ++ [text]) s
    else s in
  let s2 := setInProgressTranscript "" s1 in
  set_speechPauseTimer None s2.

(** [ms] milliseconds pass without any event; a pending task whose delay has
    run out is taken off the queue and run. *)
Definition elapse (ms : nat) (s : App) : App :=
  match speechPauseTimer s with
  | None => s
  | Some (delay, text) =>
      if (delay <=? ms)%nat
      then pauseCallback text (set_speechPauseTimer None s)
      else set_speechPauseTimer (Some (delay - ms, text)) s
  end.

(** Listener of ['click_through_toggled']. *)
Definition on_click_through_toggled (newState : bool) (s : App) : App :=
  let s1 := setClickThrough newState s in
  setStatus (if newState then "Window is click-through."
             else "Window is interactive.") s1.

(** ** Handlers *)

Section Handlers.

Variable b : Backend.

Local Open Scope async_scope.

Definition getResourcePaths : Async.t (string * string) :=
  streamExe <- Async.call (resolve_resource "resources/whisper-stream.exe")
                 (on_resolve_resource b "resources/whisper-stream.exe") ;;
  modelBin <- Async.call
                (resolve_resource "resources/models/ggml-base.en.bin")
                (on_resolve_resource b "resources/models/ggml-base.en.bin") ;;
  Async.ret (streamExe, modelBin).

(** Start / stop live transcription. *)
Definition handleToggleRecording : Handler := fun render =>
  if negb (isRecording render) then
    Async.try_catch
      (Async.update (setStatus "Recording...") ;;
       Async.update (setFinalizedTranscript (fun _ => [])) ;;
       Async.update (setInProgressTranscript "") ;;
       Async.update (setAiResponse "") ;;
       paths <- getResourcePaths ;;
       Async.call (start_live_transcription (fst paths) (snd paths))
         (on_start_live_transcription b (fst paths) (snd paths)) ;;
       Async.update (setIsRecording true))
      (fun error =>
         Async.console_error error ;;
         Async.update (setStatus ("Error: " ++ error)%string))
  else
    Async.try_catch
      (Async.call stop_live_transcription (on_stop_live_transcription b) ;;
       (if truthy (inProgressTranscript render)
        then Async.update
               (setFinalizedTranscript
                  (fun prev => prev ++ [inProgressTranscript render]))
        else Async.ret tt) ;;
       Async.update (setInProgressTranscript "") ;;
       Async.update (setStatus "Ready.") ;;
       Async.update (setIsRecording false))
      (fun error =>
         Async.console_error error ;;
         Async.update (setStatus ("Error: " ++ error)%string)).

(** Text appended to every prompt sent to the model. *)
Definition markdownRequest : string :=
  (LF ++ LF ++
   "IMPORTANT: Format your response using Markdown with line breaks, bullet points, and code blocks when relevant.")%string.

Definition handleAskGemini (prompt : string) : Handler := fun _ =>
  if negb (truthy prompt) then Async.ret tt
  else
    Async.try_catch
      (Async.update (setStatus "Thinking...") ;;
       response <- Async.call
                     (call_gemini_api (prompt ++ markdownRequest)%string)
                     (on_call_gemini_api b
                        (prompt ++ markdownRequest)%string) ;;
       Async.update (setAiResponse response) ;;
       Async.update (setActiveTab TabAi) ;;
       Async.update (setStatus "Ready.") ;;
       Async.update (setWidgetOpen true))
      (fun error =>
         Async.console_error error ;;
         Async.update (setAiResponse ("Error: " ++ error)%string) ;;
         Async.update (setActiveTab TabAi) ;;
         Async.update (setStatus "Ready.") ;;
         Async.update (setWidgetOpen true)).

Definition handleToggleClickThrough : Handler := fun render =>
  Async.try_catch
    (let newState := negb (clickThrough render) in
     Async.call (toggle_clickthrough newState)
       (on_toggle_clickthrough b newState) ;;
     Async.update (setClickThrough newState) ;;
     Async.update
       (setStatus (if newState then "Window is click-through."
                   else "Window is interactive.")))
    (fun err =>
       Async.console_error ("Failed to toggle clickthrough: " ++ err)%string).

(** The two drag handlers name [prevClickThroughRef].  No declaration and no
    import of the module binds that name (the comment that announces the ref
    is followed by the declaration of [appWindow]), so evaluating it throws
    this error, in the [try] blocks and in the [finally] block alike. *)
Definition prevClickThroughRef_unbound : string :=
  "ReferenceError: prevClickThroughRef is not defined".

(** [appWindow] is the object [useRef] returned; the window is
    [appWindow.current], and the object itself has no [startDragging]. *)
Definition startDragging_not_a_function : string :=
  "TypeError: appWindow.startDragging is not a function".

(** Mouse down on the bar.  The first statement of the [try] block,
    [prevClickThroughRef.current = clickThrough], throws; the statements
    after it are kept as the source has them. *)
Definition startDragWithClickThroughHandling : Handler := fun render =>
  Async.try_catch
    (@Async.throw unit prevClickThroughRef_unbound ;;
     (if clickThrough render
      then Async.call (toggle_clickthrough false)
             (on_toggle_clickthrough b false) ;;
           Async.update (setClickThrough false) ;;
           Async.update (setStatus "Window is interactive.")
      else Async.ret tt) ;;
     Async.throw startDragging_not_a_function)
    (fun err => Async.console_error ("Drag start error: " ++ err)%string).

(** [if (prevClickThroughRef.current)]: [null] and [false] are falsy. *)
Definition ref_truthy (r : option bool) : bool :=
  match r with
  | Some true => true
  | _ => false
  end.

(** Mouse up.  The test [prevClickThroughRef.current] throws in the [try]
    block, and the assignment [prevClickThroughRef.current = null] throws
    again in the [finally] block, so the handler's promise rejects. *)
Definition stopDragRestoreClickThrough : Handler := fun _ =>
  Async.try_catch_finally
    (prev <- Async.throw prevClickThroughRef_unbound ;;
     if ref_truthy prev
     then Async.call (toggle_clickthrough true)
            (on_toggle_clickthrough b true) ;;
          Async.update (setClickThrough true) ;;
          Async.update (setStatus "Window is click-through.")
     else Async.ret tt)
    (fun err =>
       Async.console_error ("Restore click-through error: " ++ err)%string)
    (Async.throw prevClickThroughRef_unbound).

End Handlers.

(** The transcript shown in the panel. *)
Definition transcript (s : App) : string :=
  join LF (finalizedTranscript s ++ [inProgressTranscript s]).

(** ** Events *)

Inductive Event : Type :=
| NewTranscription (text : string)
| FinalTranscription (text : string)
| ClickThroughToggled (newState : bool)
| Idle (ms : nat)
| ToggleRecording (b : Backend)
| AskGemini (prompt : string) (b : Backend)
| ToggleClickThrough (b : Backend)
| DragStart (b : Backend)
| DragEnd (b : Backend).

Definition step (e : Event) (s : App) : App :=
  match e with
  | NewTranscription text => on_new_transcription text s
  | FinalTranscription text => on_final_transcription text s
  | ClickThroughToggled newState => on_click_through_toggled newState s
  | Idle ms => elapse ms s
  | ToggleRecording b => fire (handleToggleRecording b) s
  | AskGemini prompt b => fire (handleAskGemini b prompt) s
  | ToggleClickThrough b => fire (handleToggleClickThrough b) s
  | DragStart b => fire (startDragWithClickThroughHandling b) s
  | DragEnd b => fire (stopDragRestoreClickThrough b) s
  end.

(** Events are taken in arrival order. *)
Definition run (events : list Event) (s : App) : App :=
  fold_left (fun acc e => step e acc) events s.

(** A backend on which every call succeeds. *)
Definition backend_ok : Backend := {|
  on_resolve_resource := fun path => Ok path;
  on_start_live_transcription := fun _ _ => Ok tt;
  on_stop_live_transcription := Ok tt;
  on_call_gemini_api := fun _ => Ok "answer";
  on_toggle_clickthrough := fun _ => Ok tt
|}.

(** A backend on which every call throws [error]. *)
Definition backend_down (error : string) : Backend := {|
  on_resolve_resource := fun _ => Err error;
  on_start_live_transcription := fun _ _ => Err error;
  on_stop_live_transcription := Err error;
  on_call_gemini_api := fun _ => Err error;
  on_toggle_clickthrough := fun _ => Err error
|}.

(** A recording session with one interim line that never got its final
    event: the start, the interim text, 300 ms of silence. *)
Definition session_hello : App :=
  run [ToggleRecording backend_ok; NewTranscription "hello"; Idle 300]
    initialApp.

(** The same session after the user pressed stop, 300 ms after the interim
    text arrived. *)
Definition stopped_hello : App :=
  step (ToggleRecording backend_ok) session_hello.

(** ** Vocabulary of the statements *)

(** The render the specification describes: the finalized lines joined, the
    in-progress line appended as the last line, an empty in-progress line
    left out. *)
Definition render_spec (s : App) : string :=
  join LF (finalizedTranscript s ++
           (if truthy (inProgressTranscript s)
            then [inProgressTranscript s] else [])).

(** No committed line is the empty string. *)
Definition no_empty_line (s : App) : Prop :=
  Forall (fun line => line <> "") (finalizedTranscript s).

Definition is_toggle_recording (e : Event) : bool :=
  match e with
  | ToggleRecording _ => true
  | _ => false
  end.

(** Events of one recording session: anything but a press on Listen/Stop. *)
Definition within_session (events : list Event) : bool :=
  forallb (fun e => negb (is_toggle_recording e)) events.

(** What the start path gets from the backend: the first error among the two
    path resolutions and the start command, or success. *)
Definition start_outcome (b : Backend) : Result unit :=
  match on_resolve_resource b "resources/whisper-stream.exe" with
  | Err e => Err e
  | Ok streamExe =>
      match on_resolve_resource b "resources/models/ggml-base.en.bin" with
      | Err e => Err e
      | Ok modelBin => on_start_live_transcription b streamExe modelBin
      end
  end.

(** ** The rest of the component: analysis, buttons, derived values *)

Definition setGeneralQuery (v : string) (s : App) : App :=
  {| isRecording := isRecording s;
     finalizedTranscript := finalizedTranscript s;
     inProgressTranscript := inProgressTranscript s;
     aiResponse := aiResponse s; generalQuery := v;
     status := status s; clickThrough := clickThrough s;
     speechPauseTimer := speechPauseTimer s; widgetOpen := widgetOpen s;
     listenOpen := listenOpen s; activeTab := activeTab s;
     invoked := invoked s; console := console s |}.

(** [setListenOpen(prevState => ...)]. *)
Definition setListenOpen (f : bool -> bool) (s : App) : App :=
  {| isRecording := isRecording s;
     finalizedTranscript := finalizedTranscript s;
     inProgressTranscript := inProgressTranscript s;
     aiResponse := aiResponse s; generalQuery := generalQuery s;
     status := status s; clickThrough := clickThrough s;
     speechPauseTimer := speechPauseTimer s; widgetOpen := widgetOpen s;
     listenOpen := f (listenOpen s); activeTab := activeTab s;
     invoked := invoked s; console := console s |}.

(** A call of an async function that is not awaited: its effects on the
    state happen, its outcome is dropped.  The state updates that follow in
    the caller write other fields than the ones the callee writes, so their
    order against the callee's continuation does not show. *)
Definition not_awaited (m : Async.t unit) : Async.t unit :=
  fun s => (Ok tt, snd (m s)).

(** The double quote inside a prompt. *)
Definition DQ : string := String (ascii_of_nat 34) EmptyString.

(** The template literal of [handleAnalyze] up to [${fullTranscript}]. *)
Definition analyzeInstructions : string :=
  ("You are a helpful AI assistant. " ++ LF ++
   "       When given a transcript or question:" ++ LF ++
   "       - Give a clear, detailed, yet concise explanation. " ++ LF ++
   "       - If solving requires code, provide working code snippets. " ++ LF ++
   "       - If no code is needed, just explain clearly. " ++ LF ++
   "       - Do not output " ++ DQ ++ "Summary" ++ DQ ++ " or " ++ DQ ++
   "Action Items" ++ DQ ++ " format. " ++ LF ++
   "       - Act like a normal conversational assistant." ++ LF ++
   LF ++
   "       Now, based on the following transcript, explain/solve: ")%string.

(** Analyze the transcript. *)
Definition handleAnalyze (b : Backend) : Handler := fun render =>
  let fullTranscript :=
    join LF (finalizedTranscript render ++ [inProgressTranscript render]) in
  not_awaited
    (handleAskGemini b (analyzeInstructions ++ fullTranscript)%string render).

(** [onClick] of the Listen/Stop button in the bar. *)
Definition onClickListenButton (b : Backend) : Handler := fun render =>
  Async.bind (not_awaited (handleToggleRecording b render)) (fun _ =>
  Async.bind (Async.update (setListenOpen negb)) (fun _ =>
  if negb (isRecording render)
  then Async.bind (Async.update (setWidgetOpen true)) (fun _ =>
       Async.update (setActiveTab TabTranscript))
  else Async.ret tt)).

(** [onClick] of the Listen/Stop pill in the panel. *)
Definition onClickListenPill (b : Backend) : Handler := fun render =>
  Async.bind (not_awaited (handleToggleRecording b render)) (fun _ =>
  Async.update (setActiveTab TabTranscript)).

(** Enter in the query field and [onClick] of the send button. *)
Definition submitQuery (b : Backend) : Handler := fun render =>
  Async.bind (not_awaited (handleAskGemini b (generalQuery render) render))
    (fun _ => Async.update (setGeneralQuery "")).

(** *** Values computed by the render *)

(** [{isRecording ? 'Stop' : 'Listen'}]. *)
Definition listenLabel (s : App) : string :=
  if isRecording s then "Stop" else "Listen".

(** [{transcript || 'Live transcript will appear here...'}]. *)
Definition transcriptBox (s : App) : string :=
  if truthy (transcript s) then transcript s
  else "Live transcript will appear here...".

(** [disabled={!transcript || isRecording}] of "Analyze Transcript". *)
Definition analyzeDisabled (s : App) : bool :=
  negb (truthy (transcript s)) || isRecording s.

(** [disabled={!generalQuery}] of the send button. *)
Definition sendDisabled (s : App) : bool := negb (truthy (generalQuery s)).

(** *** Vocabulary of the further statements *)

(** The status line that describes a click-through flag. *)
Definition clickThroughStatus (flag : bool) : string :=
  if flag then "Window is click-through." else "Window is interactive.".

(** Interim events in quick succession: each arrives [fst p] milliseconds
    after the one before and carries [snd p]. *)
Definition rapid_interims (rest : list (nat * string)) : list Event :=
  flat_map (fun p => [Idle (fst p); NewTranscription (snd p)]) rest.

(** A pending pause task holds the current in-progress line and has between
    1 and [pauseDelay] milliseconds left. *)
Definition timer_tracks_line (s : App) : Prop :=
  forall delay text,
    speechPauseTimer s = Some (delay, text) ->
    inProgressTranscript s = text /\ 0 < delay <= pauseDelay.

(** Events that come from the transcription side: backend transcription
    events, time, and the recording toggle. *)
Definition is_transcript_event (e : Event) : bool :=
  match e with
  | NewTranscription _ | FinalTranscription _ | Idle _
  | ToggleRecording _ => true
  | _ => false
  end.

(** Events that can write the click-through flag. *)
Definition is_window_event (e : Event) : bool :=
  match e with
  | ClickThroughToggled _ | ToggleClickThrough _ => true
  | _ => false
  end.

Definition is_drag_event (e : Event) : bool :=
  match e with
  | DragStart _ | DragEnd _ => true
  | _ => false
  end.

(** The line a drag handler writes with [console.error]. *)
Definition drag_console_line (e : Event) : string :=
  match e with
  | DragStart _ => "Drag start error: " ++ prevClickThroughRef_unbound
  | _ => "Restore click-through error: " ++ prevClickThroughRef_unbound
  end%string.

(** Several [console.error] calls in a row. *)
Definition record_console_lines (lines : list string) (s : App) : App :=
  fold_left (fun acc line => record_console line acc) lines s.

(** Events that leave a pending pause task alone or let it run: anything
    but an interim event, a final event or a press on Listen/Stop. *)
Definition keeps_pause_window (e : Event) : bool :=
  match e with
  | NewTranscription _ | FinalTranscription _ | ToggleRecording _ => false
  | _ => true
  end.

(** The silence in a run of events, in milliseconds. *)
Definition idle_time (events : list Event) : nat :=
  list_sum (map (fun e => match e with Idle ms => ms | _ => 0 end) events).


(** Unfolds the button handlers down to the handlers they call. *)
Ltac run_button :=
  unfold fire, handleAnalyze, onClickListenButton, onClickListenPill,
    submitQuery, not_awaited.

(** Unfolds a handler run down to the backend answers it depends on. *)
Ltac run_handler :=
  unfold fire, handleToggleRecording, handleAskGemini,
    handleToggleClickThrough, startDragWithClickThroughHandling,
    stopDragRestoreClickThrough, getResourcePaths,
    Async.try_catch_finally, Async.try_catch, Async.bind, Async.call,
    Async.console_error, Async.update, Async.throw, Async.ret.

(** ** Basic facts *)

Lemma truthy_nonempty (text : string) : truthy text = true <-> text <> "".
Proof.
  destruct text; simpl; split; intro H; congruence.
Qed.

Lemma truthy_of_nonempty (text : string) : text <> "" -> truthy text = true.
Proof. apply truthy_nonempty. Qed.

Lemma run_app (es1 es2 : list Event) (s : App) :
  run (es1 ++ es2) s = run es2 (run es1 s).
Proof. unfold run. apply fold_left_app. Qed.

Lemma run_cons (e : Event) (es : list Event) (s : App) :
  run (e :: es) s = run es (step e s).
Proof. reflexivity. Qed.

(** *** The pause timer *)

Lemma elapse_idle (ms : nat) (s : App) :
  speechPauseTimer s = None -> elapse ms s = s.
Proof. unfold elapse. intros ->. reflexivity. Qed.

Lemma elapse_fire (ms delay : nat) (text : string) (s : App) :
  speechPauseTimer s = Some (delay, text) -> delay <= ms ->
  elapse ms s = pauseCallback text (set_speechPauseTimer None s).
Proof.
  unfold elapse. intros -> Hle.
  apply Nat.leb_le in Hle. rewrite Hle. reflexivity.
Qed.

Lemma elapse_wait (ms delay : nat) (text : string) (s : App) :
  speechPauseTimer s = Some (delay, text) -> ms < delay ->
  elapse ms s = set_speechPauseTimer (Some (delay - ms, text)) s.
Proof.
  unfold elapse. intros -> Hlt.
  apply Nat.leb_gt in Hlt. rewrite Hlt. reflexivity.
Qed.

Lemma pauseCallback_timer (text : string) (s : App) :
  speechPauseTimer (pauseCallback text s) = speechPauseTimer s.
Proof. unfold pauseCallback. destruct (truthy text); reflexivity. Qed.

(** Waiting [a] and then [b] milliseconds is waiting [a + b]. *)
Lemma elapse_add (a b : nat) (s : App) :
  elapse b (elapse a s) = elapse (a + b) s.
Proof.
  destruct (speechPauseTimer s) as [[delay text]|] eqn:Ht.
  - destruct (le_lt_dec delay a) as [Hle|Hlt].
    + rewrite (elapse_fire a delay text s Ht Hle).
      rewrite (elapse_fire (a + b) delay text s Ht) by lia.
      apply elapse_idle. rewrite pauseCallback_timer. reflexivity.
    + rewrite (elapse_wait a delay text s Ht Hlt).
      destruct (le_lt_dec delay (a + b)) as [Hle'|Hlt'].
      * rewrite (elapse_fire (a + b) delay text s Ht Hle').
        rewrite (elapse_fire b (delay - a) text) by (simpl; trivial; lia).
        reflexivity.
      * rewrite (elapse_wait (a + b) delay text s Ht Hlt').
        rewrite (elapse_wait b (delay - a) text) by (simpl; trivial; lia).
        simpl. unfold set_speechPauseTimer. simpl.
        replace (delay - a - b) with (delay - (a + b)) by lia. reflexivity.
  - rewrite (elapse_idle a s Ht). rewrite (elapse_idle b s Ht).
    rewrite (elapse_idle (a + b) s Ht). reflexivity.
Qed.

(** Several silences in a row after a first one add up. *)
Lemma run_idle_sum (waits : list nat) (ms : nat) (s : App) :
  run (map Idle waits) (elapse ms s) = elapse (ms + list_sum waits) s.
Proof.
  revert ms. induction waits as [|w waits IH]; intro ms.
  - simpl. rewrite Nat.add_0_r. reflexivity.
  - simpl map. rewrite run_cons. simpl step. rewrite elapse_add.
    rewrite IH. simpl list_sum. f_equal. lia.
Qed.

(** With no task pending, silence changes nothing. *)
Lemma run_idle_none (waits : list nat) (s : App) :
  speechPauseTimer s = None -> run (map Idle waits) s = s.
Proof.
  induction waits as [|w waits IH]; intro Ht; [reflexivity|].
  simpl map. rewrite run_cons. simpl step.
  rewrite (elapse_idle w s Ht). apply IH, Ht.
Qed.

(** *** Start and stop *)

(** A successful stop: the rendered in-progress line is flushed once, the
    pause timer is left as it was. *)
Lemma stop_ok (b : Backend) (s : App) :
  isRecording s = true -> on_stop_live_transcription b = Ok tt ->
  let s' := fire (handleToggleRecording b) s in
  finalizedTranscript s' =
    finalizedTranscript s ++
    (if truthy (inProgressTranscript s) then [inProgressTranscript s] else [])
  /\ inProgressTranscript s' = ""
  /\ isRecording s' = false
  /\ status s' = "Ready."
  /\ speechPauseTimer s' = speechPauseTimer s.
Proof.
  intros Hrec Hok. run_handler. rewrite Hrec, Hok. simpl.
  destruct (truthy (inProgressTranscript s)); simpl;
    rewrite ?app_nil_r; repeat split; reflexivity.
Qed.

(** A failed stop changes the status line and the two traces only. *)
Lemma stop_failed (b : Backend) (error : string) (s : App) :
  isRecording s = true -> on_stop_live_transcription b = Err error ->
  fire (handleToggleRecording b) s =
    setStatus ("Error: " ++ error)%string
      (record_console error (record_invoked stop_live_transcription s)).
Proof.
  intros Hrec Herr. run_handler. rewrite Hrec, Herr. reflexivity.
Qed.

(** Whatever the backend answers, the start path clears the transcript and
    the AI answer and does not touch the pause timer. *)
Lemma start_clears (b : Backend) (s : App) :
  isRecording s = false ->
  let s' := fire (handleToggleRecording b) s in
  finalizedTranscript s' = []
  /\ inProgressTranscript s' = ""
  /\ aiResponse s' = ""
  /\ speechPauseTimer s' = speechPauseTimer s.
Proof.
  intros Hrec. run_handler. rewrite Hrec. simpl.
  destruct (on_resolve_resource b "resources/whisper-stream.exe")
    as [exe|e1]; simpl; [|repeat split; reflexivity].
  destruct (on_resolve_resource b "resources/models/ggml-base.en.bin")
    as [model|e2]; simpl; [|repeat split; reflexivity].
  destruct (on_start_live_transcription b exe model) as [[]|e3]; simpl;
    repeat split; reflexivity.
Qed.

Lemma start_ok (b : Backend) (s : App) :
  isRecording s = false -> start_outcome b = Ok tt ->
  let s' := fire (handleToggleRecording b) s in
  isRecording s' = true /\ status s' = "Recording...".
Proof.
  intros Hrec. unfold start_outcome. run_handler. rewrite Hrec. simpl.
  destruct (on_resolve_resource b "resources/whisper-stream.exe")
    as [exe|e1]; simpl; [|discriminate].
  destruct (on_resolve_resource b "resources/models/ggml-base.en.bin")
    as [model|e2]; simpl; [|discriminate].
  intros ->. simpl. split; reflexivity.
Qed.

Lemma start_failed (b : Backend) (error : string) (s : App) :
  isRecording s = false -> start_outcome b = Err error ->
  let s' := fire (handleToggleRecording b) s in
  isRecording s' = false
  /\ status s' = ("Error: " ++ error)%string
  /\ console s' = console s ++ [error]
  /\ exists sent, invoked s' = invoked s ++ sent /\ NoDup sent.
Proof.
  intros Hrec. unfold start_outcome. run_handler. rewrite Hrec. simpl.
  destruct (on_resolve_resource b "resources/whisper-stream.exe")
    as [exe|e1]; simpl.
  - destruct (on_resolve_resource b "resources/models/ggml-base.en.bin")
      as [model|e2]; simpl.
    + intros ->. simpl. rewrite Hrec. repeat split.
      eexists. split; [rewrite <- !app_assoc; reflexivity|].
      simpl. repeat constructor; rewrite ?elem_of_cons, ?elem_of_nil;
        intuition congruence.
    + intros [= ->]. rewrite Hrec. repeat split.
      eexists. split; [rewrite <- !app_assoc; reflexivity|].
      simpl. repeat constructor; rewrite ?elem_of_cons, ?elem_of_nil;
        intuition congruence.
  - intros [= ->]. rewrite Hrec. repeat split.
    eexists. split; [reflexivity|].
    repeat constructor; rewrite ?elem_of_cons, ?elem_of_nil;
      intuition congruence.
Qed.

(** ** Stopping and starting a session against the pause timer *)

(** C1.  The stop path at work on a session whose interim line "hello" is
    300 ms old: the stop flushes "hello" once and clears the in-progress
    line, but the pause task scheduled by the interim event is still
    pending afterwards, and when its remaining 1200 ms have passed it
    appends "hello" a second time. *)
Theorem stop_then_pause_timer_appends_twice :
  finalizedTranscript session_hello = []
  /\ inProgressTranscript session_hello = "hello"
  /\ finalizedTranscript stopped_hello = ["hello"]
  /\ inProgressTranscript stopped_hello = ""
  /\ speechPauseTimer stopped_hello = Some (1200, "hello")
  /\ finalizedTranscript (elapse 1200 stopped_hello) = ["hello"; "hello"].
Proof. repeat split; reflexivity. Qed.

(** C2.  The start path at work right after that stop: the new session
    begins with an empty transcript and an empty in-progress line, but the
    pause task of the previous session is still pending, and when it fires
    the new session's transcript receives the old line. *)
Theorem start_keeps_previous_pause_timer :
  let restarted := step (ToggleRecording backend_ok) stopped_hello in
  isRecording restarted = true
  /\ finalizedTranscript restarted = []
  /\ inProgressTranscript restarted = ""
  /\ speechPauseTimer restarted = Some (1200, "hello")
  /\ finalizedTranscript (elapse 1200 restarted) = ["hello"].
Proof. repeat split; reflexivity. Qed.

(** ** The pause timer firing *)

(** Silence after an interim event, as long as the window has not run out:
    nothing is committed and the task stays pending. *)
Lemma interim_then_short_silence (text : string) (s : App) (ms : nat) :
  ms < pauseDelay ->
  let s' := elapse ms (on_new_transcription text s) in
  finalizedTranscript s' = finalizedTranscript s
  /\ inProgressTranscript s' = text
  /\ speechPauseTimer s' = Some (pauseDelay - ms, text).
Proof.
  intros Hlt.
  rewrite (elapse_wait ms pauseDelay text) by (trivial; reflexivity).
  repeat split; reflexivity.
Qed.

(** C3.  The pause task at work in the stopped session: the task
    scheduled by the interim event still holds "hello" although the stop has
    already moved "hello" into the transcript and emptied the in-progress
    line; when its remaining 1200 ms have passed it appends "hello" all the
    same, without looking at the in-progress line, and the interim line,
    followed by no interim or final event, is in the transcript twice. *)
Lemma pause_timer_ignores_current_line :
  speechPauseTimer stopped_hello = Some (1200, "hello")
  /\ inProgressTranscript stopped_hello <> "hello"
  /\ finalizedTranscript (elapse 1200 stopped_hello)
     = finalizedTranscript stopped_hello ++ ["hello"]
  /\ finalizedTranscript (elapse 1200 stopped_hello) <> ["hello"].
Proof. repeat split; try reflexivity; discriminate. Qed.

(** ** Final events *)

(** C4.  A final event with a non-empty text, from any state, appends
    exactly that one entry, clears the in-progress line and leaves no pause
    task pending: however long the silence afterwards, nothing more is
    committed. *)
Theorem final_transcription_commits_once (text : string) (s : App)
    (waits : list nat) :
  text <> "" ->
  let s' := on_final_transcription text s in
  finalizedTranscript s' = finalizedTranscript s ++ [text]
  /\ inProgressTranscript s' = ""
  /\ speechPauseTimer s' = None
  /\ run (map Idle waits) s' = s'.
Proof.
  intros Hne. unfold on_final_transcription.
  rewrite (truthy_of_nonempty text Hne). cbv zeta.
  repeat split; try reflexivity.
  apply run_idle_none. reflexivity.
Qed.

Lemma final_transcription_commits_once_witness :
  finalizedTranscript
    (on_final_transcription "the quick brown fox"
       (run [NewTranscription "the quick"; Idle 200;
             NewTranscription "the quick brown fox"; Idle 10] initialApp))
  = ["the quick brown fox"].
Proof.
  refine (proj1 (final_transcription_commits_once "the quick brown fox"
                   _ [1500] _)).
  discriminate.
Defined.

(** ** Empty payloads *)

(** As long as no pending task holds a text, silence commits nothing. *)
Lemma idle_without_text (waits : list nat) (s : App) :
  (forall delay text, speechPauseTimer s = Some (delay, text) -> text = "") ->
  finalizedTranscript (run (map Idle waits) s) = finalizedTranscript s.
Proof.
  revert s. induction waits as [|w waits IH]; intros s Ht; [reflexivity|].
  simpl map. rewrite run_cons. simpl step.
  destruct (speechPauseTimer s) as [[delay text]|] eqn:Etimer.
  - pose proof (Ht delay text eq_refl) as ->.
    destruct (le_lt_dec delay w) as [Hle|Hlt].
    + rewrite (elapse_fire w delay "" s Etimer Hle). simpl.
      rewrite IH; [reflexivity|]. simpl. discriminate.
    + rewrite (elapse_wait w delay "" s Etimer Hlt).
      rewrite IH; [reflexivity|]. simpl. intros d t [= _ <-]. reflexivity.
  - rewrite (elapse_idle w s Etimer). apply IH.
    rewrite Etimer. discriminate.
Qed.

(** C6 (as the code has it).  An interim or final event with an empty text
    appends nothing, neither at once nor when the pause window runs out; it
    does clear the in-progress line and replaces (interim) or cancels
    (final) the pending pause task. *)
Theorem empty_payload_effect (s : App) (waits : list nat) :
  (finalizedTranscript (on_new_transcription "" s) = finalizedTranscript s
   /\ inProgressTranscript (on_new_transcription "" s) = ""
   /\ speechPauseTimer (on_new_transcription "" s) = Some (pauseDelay, "")
   /\ finalizedTranscript (run (map Idle waits) (on_new_transcription "" s))
      = finalizedTranscript s)
  /\ (finalizedTranscript (on_final_transcription "" s) = finalizedTranscript s
      /\ inProgressTranscript (on_final_transcription "" s) = ""
      /\ speechPauseTimer (on_final_transcription "" s) = None
      /\ run (map Idle waits) (on_final_transcription "" s)
         = on_final_transcription "" s).
Proof.
  split; repeat split; try reflexivity.
  - rewrite idle_without_text; [reflexivity|].
    simpl. intros d t [= _ <-]. reflexivity.
  - apply run_idle_none. reflexivity.
Qed.

(** C6, refuted as stated: with "hello" in progress and its pause task
    pending, an empty final event clears the line and cancels the task, and
    an empty interim event clears the line and replaces the task, so that
    "hello" is never committed. *)
Lemma empty_payload_advances_state :
  ~ (inProgressTranscript (step (FinalTranscription "") session_hello)
     = inProgressTranscript session_hello)
  /\ ~ (speechPauseTimer (step (FinalTranscription "") session_hello)
        = speechPauseTimer session_hello)
  /\ ~ (inProgressTranscript (step (NewTranscription "") session_hello)
        = inProgressTranscript session_hello)
  /\ ~ (speechPauseTimer (step (NewTranscription "") session_hello)
        = speechPauseTimer session_hello)
  /\ finalizedTranscript
       (run [NewTranscription ""; Idle 1500] session_hello) = [].
Proof. repeat split; try discriminate. Qed.

(** ** Rendering *)

Lemma string_app_assoc (a b c : string) :
  ((a ++ b) ++ c = a ++ (b ++ c))%string.
Proof. induction a as [|ch a IH]; simpl; [reflexivity|]. now rewrite IH. Qed.

(** Joining a list that ends with one more line. *)
Lemma join_snoc (sep : string) (lines : list string) (last : string) :
  join sep (lines ++ [last]) =
    match lines with
    | [] => last
    | _ :: _ => (join sep lines ++ sep ++ last)%string
    end.
Proof.
  induction lines as [|a rest IH]; [reflexivity|].
  change (join sep ((a :: rest) ++ [last]))
    with (match rest ++ [last] with
          | [] => a
          | _ :: _ => (a ++ sep ++ join sep (rest ++ [last]))%string
          end).
  destruct rest as [|b rest]; [reflexivity|].
  simpl app at 1. cbv iota. rewrite IH.
  change (join sep (a :: b :: rest))
    with (a ++ sep ++ join sep (b :: rest))%string.
  now rewrite !string_app_assoc.
Qed.

(** C5 (as the code has it).  The displayed transcript is the finalized
    lines joined by line feeds with the in-progress line appended as one
    more line, empty or not.  It is the render the specification describes
    whenever the in-progress line is non-empty or nothing is finalized yet;
    with an empty in-progress line after at least one finalized line it is
    the joined finalized lines followed by one line feed. *)
Theorem transcript_render (s : App) :
  transcript s =
    match finalizedTranscript s with
    | [] => inProgressTranscript s
    | _ :: _ =>
        (join LF (finalizedTranscript s) ++ LF ++ inProgressTranscript s)%string
    end
  /\ (inProgressTranscript s <> "" \/ finalizedTranscript s = [] ->
      transcript s = render_spec s)
  /\ (inProgressTranscript s = "" -> finalizedTranscript s <> [] ->
      transcript s = (join LF (finalizedTranscript s) ++ LF)%string
      /\ transcript s = (render_spec s ++ LF)%string).
Proof.
  unfold transcript, render_spec. rewrite join_snoc. split; [reflexivity|].
  split.
  - intros [Hne | Hnil].
    + rewrite (truthy_of_nonempty _ Hne). now rewrite join_snoc.
    + rewrite Hnil. destruct (inProgressTranscript s); reflexivity.
  - intros Hempty Hlines. rewrite Hempty. simpl truthy. cbv iota.
    rewrite app_nil_r.
    destruct (finalizedTranscript s) as [|a rest]; [congruence|].
    split; reflexivity.
Qed.

Lemma transcript_render_witness :
  transcript session_hello = render_spec session_hello
  /\ transcript stopped_hello = (render_spec stopped_hello ++ LF)%string.
Proof.
  split.
  - apply (proj1 (proj2 (transcript_render session_hello))).
    left. discriminate.
  - apply (proj2 (proj2 (transcript_render stopped_hello))).
    + reflexivity.
    + discriminate.
Defined.

(** C5, refuted as stated: once "hello" is finalized and the in-progress
    line is empty, the displayed transcript is "hello" followed by a line
    feed, not the joined finalized lines. *)
Lemma transcript_keeps_empty_trailing_line :
  inProgressTranscript stopped_hello = ""
  /\ join LF (finalizedTranscript stopped_hello) = "hello"
  /\ transcript stopped_hello = ("hello" ++ LF)%string
  /\ transcript stopped_hello <> join LF (finalizedTranscript stopped_hello)
  /\ transcript stopped_hello <> render_spec stopped_hello.
Proof. repeat split; try reflexivity; discriminate. Qed.

(** ** Session start and the AI answer *)

(** C10.  Starting a session empties the AI answer, whether or not the
    backend then starts; stopping a session, successfully or not, leaves the
    AI answer as it was. *)
Theorem session_start_clears_ai_response (b : Backend) (s : App) :
  (isRecording s = false ->
   aiResponse (fire (handleToggleRecording b) s) = "")
  /\ (isRecording s = true ->
      aiResponse (fire (handleToggleRecording b) s) = aiResponse s).
Proof.
  split; intro Hrec.
  - apply (start_clears b s Hrec).
  - run_handler. rewrite Hrec. simpl.
    destruct (on_stop_live_transcription b) as [[]|e]; simpl;
      [destruct (truthy (inProgressTranscript s))|]; reflexivity.
Qed.

Lemma session_start_clears_ai_response_witness :
  aiResponse (run [AskGemini "why" backend_ok] initialApp) = "answer"
  /\ aiResponse
       (fire (handleToggleRecording backend_ok)
          (run [AskGemini "why" backend_ok] initialApp)) = ""
  /\ aiResponse
       (fire (handleToggleRecording backend_ok)
          (run [ToggleRecording backend_ok; AskGemini "why" backend_ok]
             initialApp)) = "answer".
Proof.
  split; [reflexivity|]. split.
  - apply (proj1 (session_start_clears_ai_response backend_ok
                    (run [AskGemini "why" backend_ok] initialApp))).
    reflexivity.
  - refine (proj2 (session_start_clears_ai_response backend_ok
                     (run [ToggleRecording backend_ok;
                           AskGemini "why" backend_ok] initialApp)) _).
    reflexivity.
Defined.

(** ** Failing backend calls *)

(** C7 (as the code has it).  No failing backend call is retried, and what
    else happens depends on the handler.  A failed stop changes only the
    status line, to the error.  A failed start reports the error in the
    status line and leaves [isRecording] false, but the transcript and the
    AI answer it cleared before the call stay cleared.  A failed AI query is
    reported in the AI answer, with the status line back to "Ready." and the
    AI tab and the panel opened.  A failed click-through toggle is written
    to the console only: the status line and [clickThrough] are unchanged. *)
Theorem backend_failure_handling (b : Backend) (error : string) (s : App) :
  (isRecording s = true -> on_stop_live_transcription b = Err error ->
   fire (handleToggleRecording b) s =
     setStatus ("Error: " ++ error)%string
       (record_console error (record_invoked stop_live_transcription s)))
  /\ (isRecording s = false -> start_outcome b = Err error ->
      let s' := fire (handleToggleRecording b) s in
      (isRecording s' = false
       /\ status s' = ("Error: " ++ error)%string
       /\ console s' = console s ++ [error]
       /\ exists sent, invoked s' = invoked s ++ sent /\ NoDup sent)
      /\ finalizedTranscript s' = []
      /\ inProgressTranscript s' = ""
      /\ aiResponse s' = "")
  /\ (forall prompt,
         prompt <> "" ->
         on_call_gemini_api b (prompt ++ markdownRequest)%string = Err error ->
         fire (handleAskGemini b prompt) s =
           setWidgetOpen true
             (setStatus "Ready."
                (setActiveTab TabAi
                   (setAiResponse ("Error: " ++ error)%string
                      (record_console error
                         (record_invoked
                            (call_gemini_api
                               (prompt ++ markdownRequest)%string) s))))))
  /\ (on_toggle_clickthrough b (negb (clickThrough s)) = Err error ->
      fire (handleToggleClickThrough b) s =
        record_console ("Failed to toggle clickthrough: " ++ error)%string
          (record_invoked (toggle_clickthrough (negb (clickThrough s))) s)).
Proof.
  split; [apply stop_failed|].
  split.
  { intros Hrec Hfail. split; [apply (start_failed b error s Hrec Hfail)|].
    destruct (start_clears b s Hrec) as (Hf & Hi & Ha & _). auto. }
  split.
  - intros prompt Hne Hfail. run_handler.
    rewrite (truthy_of_nonempty prompt Hne). simpl. rewrite Hfail.
    reflexivity.
  - intros Hfail. run_handler. simpl. rewrite Hfail. reflexivity.
Qed.

Lemma backend_failure_handling_witness :
  status (fire (handleToggleRecording (backend_down "offline")) session_hello)
  = "Error: offline"
  /\ finalizedTranscript
       (fire (handleToggleRecording (backend_down "offline")) stopped_hello)
     = []
  /\ aiResponse
       (fire (handleAskGemini (backend_down "offline") "why") initialApp)
     = "Error: offline"
  /\ status
       (fire (handleToggleClickThrough (backend_down "offline")) initialApp)
     = "Ready.".
Proof.
  pose proof (backend_failure_handling (backend_down "offline") "offline")
    as H.
  split; [|split; [|split]].
  - rewrite (proj1 (H session_hello) eq_refl eq_refl). reflexivity.
  - apply (proj1 (proj2 (H stopped_hello)) eq_refl eq_refl).
  - rewrite (proj1 (proj2 (proj2 (H initialApp))) "why");
      [reflexivity|discriminate|reflexivity].
  - rewrite (proj2 (proj2 (proj2 (H initialApp))) eq_refl). reflexivity.
Defined.

(** C7, refuted as stated: a failed click-through toggle leaves the status
    line as it was, a failed start leaves the transcript of the previous
    session cleared, and a failed AI query overwrites the AI answer while
    the status line says "Ready.". *)
Lemma backend_failure_not_always_reported_or_rolled_back :
  status (step (ToggleClickThrough (backend_down "offline")) initialApp)
  = status initialApp
  /\ finalizedTranscript stopped_hello = ["hello"]
  /\ finalizedTranscript
       (step (ToggleRecording (backend_down "offline")) stopped_hello)
     <> finalizedTranscript stopped_hello
  /\ status (step (AskGemini "why" (backend_down "offline")) initialApp)
     = "Ready."
  /\ aiResponse (step (AskGemini "why" (backend_down "offline")) initialApp)
     <> aiResponse initialApp.
Proof. repeat split; try reflexivity; discriminate. Qed.

(** ** The finalized transcript *)

(** One event either is a start, which empties the transcript, or appends
    non-empty lines (possibly none) to it. *)
Lemma step_finalized (e : Event) (s : App) :
  (is_toggle_recording e = true /\ isRecording s = false
   /\ finalizedTranscript (step e s) = [])
  \/ (exists added,
         finalizedTranscript (step e s) = finalizedTranscript s ++ added
         /\ Forall (fun line => line <> "") added).
Proof.
  assert (Hsame : forall s', finalizedTranscript s' = finalizedTranscript s ->
            exists added, finalizedTranscript s' = finalizedTranscript s ++ added
                          /\ Forall (fun line => line <> "") added).
  { intros s' ->. exists []. rewrite app_nil_r. split; constructor. }
  assert (Hone : forall s' text, truthy text = true ->
            finalizedTranscript s' = finalizedTranscript s ++ [text] ->
            exists added, finalizedTranscript s' = finalizedTranscript s ++ added
                          /\ Forall (fun line => line <> "") added).
  { intros s' text Htext ->. exists [text]. split; [reflexivity|].
    repeat constructor. now apply truthy_nonempty. }
  destruct e as [text|text|newState|ms|b|prompt b|b|b|b]; simpl step.
  - right. apply Hsame. reflexivity.
  - right. unfold on_final_transcription.
    destruct (truthy text) eqn:Htext;
      [apply (Hone _ text Htext)|apply Hsame]; reflexivity.
  - right. apply Hsame. reflexivity.
  - right. unfold elapse.
    destruct (speechPauseTimer s) as [[delay text]|]; [|now apply Hsame].
    destruct (delay <=? ms)%nat; [|now apply Hsame].
    unfold pauseCallback.
    destruct (truthy text) eqn:Htext;
      [apply (Hone _ text Htext)|apply Hsame]; reflexivity.
  - destruct (isRecording s) eqn:Hrec.
    + right. destruct (on_stop_live_transcription b) as [[]|error] eqn:Hstop.
      * destruct (stop_ok b s Hrec Hstop) as (Hfin & _).
        destruct (truthy (inProgressTranscript s)) eqn:Htext;
          [apply (Hone _ _ Htext Hfin)|].
        apply Hsame. rewrite Hfin. apply app_nil_r.
      * apply Hsame. rewrite (stop_failed b error s Hrec Hstop). reflexivity.
    + left. repeat split. apply (start_clears b s Hrec).
  - right. apply Hsame. run_handler.
    destruct (truthy prompt); simpl; [|reflexivity].
    destruct (on_call_gemini_api b _); reflexivity.
  - right. apply Hsame. run_handler. simpl.
    destruct (on_toggle_clickthrough b _) as [[]|]; reflexivity.
  - right. apply Hsame. reflexivity.
  - right. apply Hsame. reflexivity.
Qed.

(** Only a press on Listen/Stop changes [isRecording]. *)
Lemma step_isRecording (e : Event) (s : App) :
  is_toggle_recording e = false -> isRecording (step e s) = isRecording s.
Proof.
  destruct e as [text|text|newState|ms|b|prompt b|b|b|b]; simpl;
    intro Hev; try discriminate; try reflexivity.
  - unfold on_final_transcription. destruct (truthy text); reflexivity.
  - unfold elapse.
    destruct (speechPauseTimer s) as [[delay text]|]; [|reflexivity].
    destruct (delay <=? ms)%nat; [|reflexivity].
    unfold pauseCallback. destruct (truthy text); reflexivity.
  - run_handler. destruct (truthy prompt); simpl; [|reflexivity].
    destruct (on_call_gemini_api b _); reflexivity.
  - run_handler. simpl.
    destruct (on_toggle_clickthrough b _) as [[]|]; reflexivity.
Qed.

Lemma step_no_empty_line (e : Event) (s : App) :
  no_empty_line s -> no_empty_line (step e s).
Proof.
  unfold no_empty_line. intro Hinv.
  destruct (step_finalized e s) as [(_ & _ & ->) | (added & -> & Hadded)].
  - constructor.
  - apply Forall_app. split; assumption.
Qed.

Lemma step_append_only (e : Event) (s : App) :
  isRecording s = true ->
  finalizedTranscript s `prefix_of` finalizedTranscript (step e s).
Proof.
  intro Hrec.
  destruct (step_finalized e s) as [(_ & Hnot & _) | (added & -> & _)].
  - congruence.
  - now exists added.
Qed.

Lemma run_no_empty_line (events : list Event) (s : App) :
  no_empty_line s -> no_empty_line (run events s).
Proof.
  revert s. induction events as [|e events IH]; intros s Hinv; [exact Hinv|].
  rewrite run_cons. apply IH, step_no_empty_line, Hinv.
Qed.

(** During a session the recording flag stays up and the transcript only
    grows at its end. *)
Lemma run_within_session (events : list Event) (s : App) :
  isRecording s = true -> within_session events = true ->
  isRecording (run events s) = true
  /\ finalizedTranscript s `prefix_of` finalizedTranscript (run events s).
Proof.
  revert s. induction events as [|e events IH]; intros s Hrec Hses.
  - split; [exact Hrec|reflexivity].
  - simpl in Hses. apply andb_prop in Hses as [He Hses].
    apply negb_true_iff in He. rewrite run_cons.
    destruct (IH (step e s)) as [Hrec' Hpre]; [|exact Hses|].
    + rewrite (step_isRecording e s He). exact Hrec.
    + split; [exact Hrec'|].
      transitivity (finalizedTranscript (step e s)); [|exact Hpre].
      apply step_append_only, Hrec.
Qed.

(** C8.  Every operation keeps the empty string out of the finalized
    transcript, so no run of events brings one in; and from a state within
    a recording session, through any events up to and including the stop,
    the finalized transcript only grows at its end: what was there stays
    there, in the same order. *)
Theorem finalized_invariant (events : list Event) (s : App) :
  (no_empty_line s -> no_empty_line (run events s))
  /\ (isRecording s = true -> within_session events = true ->
      forall stop,
        finalizedTranscript s `prefix_of` finalizedTranscript (run events s)
        /\ finalizedTranscript (run events s) `prefix_of`
             finalizedTranscript (run (events ++ [ToggleRecording stop]) s)).
Proof.
  split; [apply run_no_empty_line|].
  intros Hrec Hses stop.
  destruct (run_within_session events s Hrec Hses) as [Hrec' Hpre].
  split; [exact Hpre|].
  rewrite run_app. apply (step_append_only (ToggleRecording stop)), Hrec'.
Qed.

Lemma finalized_invariant_witness :
  no_empty_line
    (run [ToggleRecording backend_ok; NewTranscription "one"; Idle 1500;
          NewTranscription ""; FinalTranscription "two";
          ToggleRecording backend_ok] initialApp)
  /\ finalizedTranscript session_hello `prefix_of`
       finalizedTranscript
         (run ([FinalTranscription "hello"; NewTranscription "again"]
               ++ [ToggleRecording backend_ok]) session_hello).
Proof.
  split.
  - apply (proj1 (finalized_invariant _ initialApp)). constructor.
  - destruct (proj2 (finalized_invariant
                       [FinalTranscription "hello"; NewTranscription "again"]
                       session_hello) eq_refl eq_refl backend_ok)
      as [Hfirst Hthen].
    transitivity
      (finalizedTranscript
         (run [FinalTranscription "hello"; NewTranscription "again"]
            session_hello)); assumption.
Defined.

(** ** Dragging the window *)

(** Mouse-down, from any render and state and with any backend: the error is
    caught and logged, nothing else happens. *)
Lemma drag_start_throws (b : Backend) (render s : App) :
  startDragWithClickThroughHandling b render s
  = (Ok tt,
     record_console ("Drag start error: " ++ prevClickThroughRef_unbound)%string
       s).
Proof. reflexivity. Qed.

(** Mouse-up: the error of the [try] block is caught and logged, the one of
    the [finally] block leaves the handler. *)
Lemma drag_end_throws (b : Backend) (render s : App) :
  stopDragRestoreClickThrough b render s
  = (Err prevClickThroughRef_unbound,
     record_console
       ("Restore click-through error: " ++ prevClickThroughRef_unbound)%string
       s).
Proof. reflexivity. Qed.

(** C9.  The drag gesture at work on the initial, click-through window with
    a backend that accepts everything.  Mouse-down throws on the undeclared
    [prevClickThroughRef] before anything is recorded or requested: the
    error is logged, no command is sent and the window stays click-through.
    Mouse-up throws on the same name, logs, and throws again in its
    [finally] block, so that its last step clears nothing and the handler
    rejects. *)
Theorem drag_handlers_throw_on_undeclared_ref :
  let pressed :=
    startDragWithClickThroughHandling backend_ok initialApp initialApp in
  let released :=
    stopDragRestoreClickThrough backend_ok (snd pressed) (snd pressed) in
  clickThrough initialApp = true
  /\ pressed =
       (Ok tt,
        record_console
          "Drag start error: ReferenceError: prevClickThroughRef is not defined"
          initialApp)
  /\ clickThrough (snd pressed) = true
  /\ invoked (snd pressed) = []
  /\ fst released = Err "ReferenceError: prevClickThroughRef is not defined"
  /\ console (snd released) =
       ["Drag start error: ReferenceError: prevClickThroughRef is not defined";
        "Restore click-through error: ReferenceError: prevClickThroughRef is not defined"]
  /\ clickThrough (snd released) = true
  /\ invoked (snd released) = [].
Proof. repeat split; reflexivity. Qed.

(** ** Further properties of the component *)

(** Case analysis on every backend answer and state test a handler run
    depends on. *)
Ltac split_answers :=
  repeat (match goal with
          | |- context [match ?x with _ => _ end] =>
              lazymatch x with
              | context [match _ with _ => _ end] => fail
              | _ => destruct x eqn:?
              end
          end; simpl).

(** *** Which event writes which part of the state *)

Lemma step_window_side (e : Event) (s : App) :
  is_transcript_event e = false ->
  finalizedTranscript (step e s) = finalizedTranscript s
  /\ inProgressTranscript (step e s) = inProgressTranscript s
  /\ speechPauseTimer (step e s) = speechPauseTimer s
  /\ isRecording (step e s) = isRecording s.
Proof.
  destruct e as [text|text|newState|ms|b|prompt b|b|b|b]; simpl;
    intro Hev; try discriminate.
  - repeat split; reflexivity.
  - run_handler. split_answers; repeat split; reflexivity.
  - run_handler. split_answers; repeat split; reflexivity.
  - run_handler. split_answers; repeat split; reflexivity.
  - run_handler. split_answers; repeat split; reflexivity.
Qed.

Lemma step_transcript_side (e : Event) (s : App) :
  is_window_event e = false ->
  clickThrough (step e s) = clickThrough s.
Proof.
  destruct e as [text|text|newState|ms|b|prompt b|b|b|b]; simpl;
    intro Hev; try discriminate.
  - reflexivity.
  - unfold on_final_transcription. split_answers; reflexivity.
  - unfold elapse, pauseCallback. split_answers; reflexivity.
  - run_handler. split_answers; reflexivity.
  - run_handler. split_answers; reflexivity.
  - reflexivity.
  - reflexivity.
Qed.

(** X1.  Transcription events, silence, the recording toggle, AI queries and
    the two drag handlers never write the click-through flag; and the
    backend push, the click-through toggle, the drag handlers and AI queries
    never write the transcript, the pause timer or the recording flag. *)
Theorem transcript_and_window_are_separate (events : list Event) (s : App) :
  (forallb (fun e => negb (is_window_event e)) events = true ->
   clickThrough (run events s) = clickThrough s)
  /\ (forallb (fun e => negb (is_transcript_event e)) events = true ->
      finalizedTranscript (run events s) = finalizedTranscript s
      /\ inProgressTranscript (run events s) = inProgressTranscript s
      /\ speechPauseTimer (run events s) = speechPauseTimer s
      /\ isRecording (run events s) = isRecording s
      /\ transcript (run events s) = transcript s).
Proof.
  split; revert s; induction events as [|e events IH]; intros s Hall;
    try (repeat split; reflexivity);
    simpl in Hall; apply andb_prop in Hall as [He Hall];
    apply negb_true_iff in He; rewrite run_cons.
  - rewrite (IH (step e s) Hall). apply step_transcript_side, He.
  - destruct (IH (step e s) Hall) as (-> & -> & -> & -> & Htr).
    destruct (step_window_side e s He) as (Hf & Hi & Ht & Hr).
    repeat split; try assumption.
    rewrite Htr. unfold transcript. now rewrite Hf, Hi.
Qed.

Lemma transcript_and_window_are_separate_witness :
  clickThrough
    (run [ToggleRecording backend_ok; NewTranscription "hello"; Idle 1500;
          DragStart backend_ok; AskGemini "why" (backend_down "offline");
          DragEnd backend_ok] initialApp) = true
  /\ transcript
       (run [DragStart backend_ok; ClickThroughToggled true;
             DragEnd (backend_down "offline"); ToggleClickThrough backend_ok]
          stopped_hello)
     = transcript stopped_hello.
Proof.
  split.
  - refine (proj1 (transcript_and_window_are_separate _ initialApp) _).
    reflexivity.
  - refine (proj2 (proj2 (proj2 (proj2
              (proj2 (transcript_and_window_are_separate _ stopped_hello)
                 _))))).
    reflexivity.
Defined.

(** *** The click-through flag and the status line *)

(** X2.  Whenever an event changes the click-through flag, the status line
    after the event describes the new value of the flag.  (Only the backend
    push and an accepted toggle change it; the drag handlers never do.) *)
Theorem click_through_change_is_announced (e : Event) (s : App) :
  clickThrough (step e s) <> clickThrough s ->
  status (step e s) = clickThroughStatus (clickThrough (step e s)).
Proof.
  destruct (is_window_event e) eqn:Hwin.
  - destruct e as [text|text|newState|ms|b|prompt b|b|b|b];
      try discriminate; simpl; clear Hwin.
    + intros _. destruct newState; reflexivity.
    + run_handler. simpl.
      destruct (on_toggle_clickthrough b (negb (clickThrough s))) as [[]|];
        simpl; [|congruence].
      intros _. destruct (clickThrough s); reflexivity.
  - intros Hchange. destruct Hchange. apply step_transcript_side, Hwin.
Qed.

Lemma click_through_change_is_announced_witness :
  status (step (ToggleClickThrough backend_ok) initialApp)
  = "Window is interactive."
  /\ status
       (step (ClickThroughToggled true)
          (step (ToggleClickThrough backend_ok) initialApp))
     = "Window is click-through.".
Proof.
  split.
  - apply (click_through_change_is_announced (ToggleClickThrough backend_ok)
             initialApp).
    discriminate.
  - apply (click_through_change_is_announced (ClickThroughToggled true)
             (step (ToggleClickThrough backend_ok) initialApp)).
    discriminate.
Defined.

(** X3.  Two click-through toggles that the backend accepts bring the flag
    back to where it was, each sends exactly one [toggle_clickthrough]
    command asking for the opposite of the flag it saw, and a backend push
    in between or afterwards overrides the flag without sending anything. *)
Theorem toggle_click_through_twice (b1 b2 : Backend) (s : App) :
  on_toggle_clickthrough b1 (negb (clickThrough s)) = Ok tt ->
  on_toggle_clickthrough b2 (clickThrough s) = Ok tt ->
  let once := fire (handleToggleClickThrough b1) s in
  let twice := fire (handleToggleClickThrough b2) once in
  clickThrough once = negb (clickThrough s)
  /\ clickThrough twice = clickThrough s
  /\ invoked twice =
       invoked s ++ [toggle_clickthrough (negb (clickThrough s));
                     toggle_clickthrough (clickThrough s)]
  /\ forall pushed,
       clickThrough (on_click_through_toggled pushed once) = pushed
       /\ invoked (on_click_through_toggled pushed once) = invoked once.
Proof.
  intros H1 H2. cbv zeta. run_handler.
  destruct (clickThrough s); simpl in *; rewrite H1; simpl; rewrite H2;
    simpl; rewrite <- app_assoc; repeat split; reflexivity.
Qed.

Lemma toggle_click_through_twice_witness :
  clickThrough
    (run [ToggleClickThrough backend_ok; ToggleClickThrough backend_ok]
       initialApp)
  = clickThrough initialApp.
Proof.
  refine (proj1 (proj2 (toggle_click_through_twice backend_ok backend_ok
                          initialApp _ _))); reflexivity.
Defined.

(** *** Interim events and the pause timer *)

Lemma last_cons_default {A : Type} (x d : A) (l : list A) :
  List.last (x :: l) d = List.last l x.
Proof.
  revert x d. induction l as [|y l IH]; intros x d; [reflexivity|].
  change (List.last (x :: y :: l) d) with (List.last (y :: l) d).
  rewrite IH. symmetry. apply IH.
Qed.

Lemma interim_after_short_silence (ms : nat) (text : string) (s : App) :
  ms < pauseDelay ->
  (exists previous, speechPauseTimer s = Some (pauseDelay, previous)) ->
  let s' := on_new_transcription text (elapse ms s) in
  finalizedTranscript s' = finalizedTranscript s
  /\ inProgressTranscript s' = text
  /\ speechPauseTimer s' = Some (pauseDelay, text).
Proof.
  intros Hms [previous Ht].
  rewrite (elapse_wait ms pauseDelay previous s Ht Hms).
  repeat split; reflexivity.
Qed.

(** X4.  Interim events that follow each other within the pause window
    commit nothing: after any such burst the finalized transcript is what it
    was, the in-progress line is the text of the last interim event, and
    the pause task waits a full window for that text; a final event then
    commits its own text only. *)
Theorem interims_supersede (first : string) (rest : list (nat * string))
    (s : App) :
  Forall (fun p => fst p < pauseDelay) rest ->
  let burst := NewTranscription first :: rapid_interims rest in
  let latest := List.last (map snd rest) first in
  finalizedTranscript (run burst s) = finalizedTranscript s
  /\ inProgressTranscript (run burst s) = latest
  /\ speechPauseTimer (run burst s) = Some (pauseDelay, latest)
  /\ forall final,
       final <> "" ->
       finalizedTranscript (run (burst ++ [FinalTranscription final]) s)
       = finalizedTranscript s ++ [final].
Proof.
  intros Hrest. cbv zeta.
  assert (Hburst :
    finalizedTranscript (run (NewTranscription first :: rapid_interims rest) s)
    = finalizedTranscript s
    /\ inProgressTranscript
         (run (NewTranscription first :: rapid_interims rest) s)
       = List.last (map snd rest) first
    /\ speechPauseTimer (run (NewTranscription first :: rapid_interims rest) s)
       = Some (pauseDelay, List.last (map snd rest) first)).
  { rewrite run_cons. simpl step.
    assert (Hstart : finalizedTranscript (on_new_transcription first s)
                     = finalizedTranscript s) by reflexivity.
    assert (Hline : inProgressTranscript (on_new_transcription first s)
                    = first) by reflexivity.
    assert (Htimer : speechPauseTimer (on_new_transcription first s)
                     = Some (pauseDelay, first)) by reflexivity.
    revert Hstart Hline Htimer.
    generalize (on_new_transcription first s) as s1. revert first.
    induction Hrest as [|[ms text] rest Hms Hrest IH];
      intros first s1 Hstart Hline Htimer.
    - simpl. auto.
    - unfold rapid_interims. simpl flat_map. fold (rapid_interims rest).
      rewrite !run_cons. simpl step. simpl fst. simpl snd.
      destruct (interim_after_short_silence ms text s1 Hms
                  (ex_intro _ first Htimer)) as (Hf & Hl & Ht).
      simpl map. rewrite last_cons_default.
      apply IH; [rewrite Hf; exact Hstart|exact Hl|exact Ht]. }
  destruct Hburst as (Hf & Hl & Ht). repeat split; try assumption.
  intros final Hfinal. rewrite run_app.
  set (sb := run (NewTranscription first :: rapid_interims rest) s) in *.
  change (run [FinalTranscription final] sb)
    with (on_final_transcription final sb).
  unfold on_final_transcription. rewrite (truthy_of_nonempty final Hfinal).
  cbv zeta. simpl finalizedTranscript. now rewrite Hf.
Qed.

Lemma interims_supersede_witness :
  finalizedTranscript
    (run ((NewTranscription "the quick"
           :: rapid_interims [(200, "the quick brown fox")])
          ++ [FinalTranscription "the quick brown fox"]) initialApp)
  = ["the quick brown fox"].
Proof.
  refine (proj2 (proj2 (proj2
            (interims_supersede "the quick" [(200, "the quick brown fox")]
               initialApp _))) "the quick brown fox" _).
  - constructor; [unfold pauseDelay; simpl; lia|constructor].
  - discriminate.
Defined.

Lemma step_timer_tracks_line (e : Event) (s : App) :
  is_toggle_recording e = false ->
  timer_tracks_line s -> timer_tracks_line (step e s).
Proof.
  intros Hev Hinv.
  destruct (is_transcript_event e) eqn:Htr.
  - destruct e as [text|text|newState|ms|b|prompt b|b|b|b];
      try discriminate; simpl step; intros delay line.
    + simpl. intros Hsome. inversion Hsome. unfold pauseDelay.
      split; [reflexivity|lia].
    + destruct (speechPauseTimer s) as [[d t]|] eqn:Etimer.
      * destruct (le_lt_dec d ms) as [Hle|Hlt].
        -- rewrite (elapse_fire ms d t s Etimer Hle).
           rewrite pauseCallback_timer. simpl. discriminate.
        -- rewrite (elapse_wait ms d t s Etimer Hlt). simpl.
           intros [= <- <-]. destruct (Hinv d t Etimer) as [Hline Hd].
           split; [exact Hline|lia].
      * rewrite (elapse_idle ms s Etimer). rewrite Etimer. discriminate.
  - destruct (step_window_side e s Htr) as (_ & Hline & Htimer & _).
    intros delay line. rewrite Hline, Htimer. apply Hinv.
Qed.

(** X5.  As long as Listen/Stop is not pressed, a pending pause task always
    holds the current in-progress line, with between 1 and 1500 ms left: the
    text it will commit is the text on display.  This holds in the initial
    state and is kept by every other event. *)
Theorem pending_text_is_current_line (events : list Event) (s : App) :
  timer_tracks_line initialApp
  /\ (within_session events = true ->
      timer_tracks_line s -> timer_tracks_line (run events s)).
Proof.
  split; [intros delay text; discriminate|].
  revert s. induction events as [|e events IH]; intros s Hses Hinv;
    [exact Hinv|].
  simpl in Hses. apply andb_prop in Hses as [He Hses].
  apply negb_true_iff in He. rewrite run_cons.
  apply IH; [exact Hses|]. apply step_timer_tracks_line; assumption.
Qed.

Lemma pending_text_is_current_line_witness :
  timer_tracks_line
    (run [NewTranscription "one"; Idle 700; ClickThroughToggled false;
          NewTranscription "two"; Idle 1499] initialApp).
Proof.
  refine (proj2 (pending_text_is_current_line
                   [NewTranscription "one"; Idle 700;
                    ClickThroughToggled false; NewTranscription "two";
                    Idle 1499] initialApp) _ _).
  - reflexivity.
  - exact (proj1 (pending_text_is_current_line [] initialApp)).
Defined.

Lemma append_LF_nonempty (a c : string) : (a ++ LF ++ c)%string <> "".
Proof. destruct a; discriminate. Qed.

(** X6.  When the pause task fires while it holds the in-progress line, or
    a final event arrives with the text of the in-progress line, the
    displayed transcript changes by one line feed at its end and nothing
    else: the line stays where it is on screen. *)
Theorem finalization_keeps_display (text : string) (s : App) :
  text <> "" -> inProgressTranscript s = text ->
  transcript (on_final_transcription text s) = (transcript s ++ LF)%string
  /\ (forall delay ms,
         speechPauseTimer s = Some (delay, text) -> delay <= ms ->
         transcript (elapse ms s) = (transcript s ++ LF)%string).
Proof.
  intros Hne Hline.
  assert (Hshow : forall s', finalizedTranscript s' = finalizedTranscript s ++ [text] ->
            inProgressTranscript s' = "" ->
            transcript s' = (transcript s ++ LF)%string).
  { intros s' Hf Hi. unfold transcript. rewrite Hf, Hi, Hline.
    rewrite (join_snoc LF (finalizedTranscript s ++ [text]) "").
    destruct (finalizedTranscript s ++ [text]) eqn:Hl; [|reflexivity].
    destruct (finalizedTranscript s); discriminate. }
  split.
  - apply Hshow; unfold on_final_transcription;
      rewrite (truthy_of_nonempty text Hne); reflexivity.
  - intros delay ms Htimer Hle. rewrite (elapse_fire ms delay text s Htimer Hle).
    apply Hshow; unfold pauseCallback;
      rewrite (truthy_of_nonempty text Hne); reflexivity.
Qed.

Lemma finalization_keeps_display_witness :
  transcript (elapse 1200 session_hello)
  = (transcript session_hello ++ LF)%string.
Proof.
  refine (proj2 (finalization_keeps_display "hello" session_hello _ _)
            1200 1200 _ _).
  - discriminate.
  - reflexivity.
  - reflexivity.
  - lia.
Defined.

(** X7.  A final event that arrives after the pause task has already
    committed the same text commits it again: the finalized transcript then
    holds the utterance twice. *)
Theorem late_final_duplicates (text : string) (waits : list nat) (s : App) :
  text <> "" -> pauseDelay <= list_sum waits ->
  finalizedTranscript
    (run (NewTranscription text :: map Idle waits
          ++ [FinalTranscription text]) s)
  = finalizedTranscript s ++ [text; text].
Proof.
  intros Hne Hsum. rewrite run_cons, run_app.
  change (step (NewTranscription text) s) with (on_new_transcription text s).
  destruct waits as [|w waits];
    [simpl in Hsum; unfold pauseDelay in Hsum; lia|].
  simpl map. rewrite (run_cons (Idle w)).
  change (step (Idle w) (on_new_transcription text s))
    with (elapse w (on_new_transcription text s)).
  rewrite run_idle_sum. simpl in Hsum.
  rewrite (elapse_fire _ pauseDelay text) by (trivial; reflexivity).
  change (run [FinalTranscription text] ?x)
    with (on_final_transcription text x).
  unfold on_final_transcription, pauseCallback.
  rewrite (truthy_of_nonempty text Hne). simpl.
  now rewrite <- app_assoc.
Qed.

Lemma late_final_duplicates_witness :
  finalizedTranscript
    (run (NewTranscription "testing one two" :: map Idle [1500]
          ++ [FinalTranscription "testing one two"]) initialApp)
  = ["testing one two"; "testing one two"].
Proof.
  refine (late_final_duplicates "testing one two" [1500] initialApp _ _).
  - discriminate.
  - unfold pauseDelay. simpl. lia.
Defined.

(** *** What the panel shows *)

(** X8.  The displayed transcript is empty exactly when nothing is finalized
    and nothing is in progress; only then does the transcript box show its
    placeholder, and "Analyze Transcript" is enabled exactly when the
    session is not recording and there is something to analyze. *)
Theorem transcript_empty_iff (s : App) :
  (transcript s = "" <->
   finalizedTranscript s = [] /\ inProgressTranscript s = "")
  /\ (transcript s <> "" -> transcriptBox s = transcript s)
  /\ (transcript s = "" ->
      transcriptBox s = "Live transcript will appear here...")
  /\ (analyzeDisabled s = false <->
      isRecording s = false
      /\ ~ (finalizedTranscript s = [] /\ inProgressTranscript s = "")).
Proof.
  assert (Hempty : transcript s = "" <->
            finalizedTranscript s = [] /\ inProgressTranscript s = "").
  { unfold transcript. rewrite join_snoc.
    destruct (finalizedTranscript s) as [|a rest].
    - split; [intros ->; auto|intros [_ ->]; reflexivity].
    - split; [intro H; now apply append_LF_nonempty in H
             |intros [H _]; discriminate]. }
  split; [exact Hempty|]. unfold transcriptBox, analyzeDisabled.
  split; [|split].
  - intro Hne. now rewrite (truthy_of_nonempty _ Hne).
  - intros ->. reflexivity.
  - rewrite <- Hempty. rewrite orb_false_iff, negb_false_iff, truthy_nonempty.
    tauto.
Qed.

Lemma transcript_empty_iff_witness :
  transcriptBox initialApp = "Live transcript will appear here..."
  /\ transcriptBox stopped_hello = ("hello" ++ LF)%string
  /\ analyzeDisabled stopped_hello = false
  /\ analyzeDisabled session_hello = true.
Proof.
  split; [|split; [|split]].
  - apply (proj1 (proj2 (proj2 (transcript_empty_iff initialApp)))).
    reflexivity.
  - apply (proj1 (proj2 (transcript_empty_iff stopped_hello))).
    discriminate.
  - apply (proj2 (proj2 (proj2 (transcript_empty_iff stopped_hello)))).
    split; [reflexivity|]. intros [H _]. discriminate.
  - destruct (analyzeDisabled session_hello) eqn:Hd; [reflexivity|].
    apply (proj2 (proj2 (proj2 (transcript_empty_iff session_hello)))) in Hd.
    destruct Hd as [Hrec _]. discriminate.
Defined.

(** *** Starting and stopping, command by command *)

(** X9.  The recording flag follows the backend: a press on Listen raises it
    exactly when both resources resolve and the start command succeeds, a
    press on Stop lowers it exactly when the stop command succeeds. *)
Theorem recording_flag_follows_backend (b : Backend) (s : App) :
  (isRecording s = false ->
   (isRecording (fire (handleToggleRecording b) s) = true
    <-> start_outcome b = Ok tt))
  /\ (isRecording s = true ->
      (isRecording (fire (handleToggleRecording b) s) = false
       <-> on_stop_live_transcription b = Ok tt)).
Proof.
  split; intro Hrec.
  - destruct (start_outcome b) as [[]|error] eqn:Hstart.
    + split; [reflexivity|]. intros _. apply (start_ok b s Hrec Hstart).
    + destruct (start_failed b error s Hrec Hstart) as [Hoff _].
      rewrite Hoff. split; discriminate.
  - destruct (on_stop_live_transcription b) as [[]|error] eqn:Hstop.
    + split; [reflexivity|]. intros _. apply (stop_ok b s Hrec Hstop).
    + rewrite (stop_failed b error s Hrec Hstop). simpl. rewrite Hrec.
      split; discriminate.
Qed.

Lemma recording_flag_follows_backend_witness :
  isRecording (fire (handleToggleRecording backend_ok) initialApp) = true
  /\ isRecording (fire (handleToggleRecording backend_ok) session_hello)
     = false.
Proof.
  split.
  - apply (proj1 (recording_flag_follows_backend backend_ok initialApp));
      reflexivity.
  - apply (proj2 (recording_flag_follows_backend backend_ok session_hello));
      reflexivity.
Defined.



(** *** Asking the model *)

(** X11.  An AI query with an empty prompt does nothing at all.  With a
    non-empty prompt it sends exactly one [call_gemini_api] command, the
    prompt followed by the Markdown request, and whatever the answer it ends
    with the status "Ready.", the AI tab selected and the panel open; the AI
    answer is the response, or "Error: " and the error. *)
Theorem ask_gemini_outcome (b : Backend) (prompt : string) (s : App) :
  fire (handleAskGemini b "") s = s
  /\ (prompt <> "" ->
      let s' := fire (handleAskGemini b prompt) s in
      invoked s' =
        invoked s ++ [call_gemini_api (prompt ++ markdownRequest)%string]
      /\ status s' = "Ready."
      /\ activeTab s' = TabAi
      /\ widgetOpen s' = true
      /\ aiResponse s' =
           match on_call_gemini_api b (prompt ++ markdownRequest)%string with
           | Ok response => response
           | Err error => ("Error: " ++ error)%string
           end).
Proof.
  split; [reflexivity|].
  intros Hne. run_handler. rewrite (truthy_of_nonempty prompt Hne). simpl.
  destruct (on_call_gemini_api b (prompt ++ markdownRequest)%string);
    repeat split; reflexivity.
Qed.

Lemma ask_gemini_outcome_witness :
  fire (handleAskGemini backend_ok "") session_hello = session_hello
  /\ aiResponse (fire (handleAskGemini backend_ok "why") session_hello)
     = "answer".
Proof.
  split.
  - apply (proj1 (ask_gemini_outcome backend_ok "" session_hello)).
  - refine (proj2 (proj2 (proj2 (proj2
              (proj2 (ask_gemini_outcome backend_ok "why" session_hello)
                 _))))).
    discriminate.
Defined.

(** X12.  "Analyze Transcript" always sends one query, also for an empty
    transcript: the fixed instructions, then the transcript exactly as it is
    displayed, then the Markdown request; it ends on the AI tab with the
    panel open and the status "Ready.". *)
Theorem analyze_sends_transcript (b : Backend) (s : App) :
  let s' := fire (handleAnalyze b) s in
  invoked s' =
    invoked s ++
    [call_gemini_api
       ((analyzeInstructions ++ transcript s) ++ markdownRequest)%string]
  /\ status s' = "Ready."
  /\ activeTab s' = TabAi
  /\ widgetOpen s' = true
  /\ finalizedTranscript s' = finalizedTranscript s
  /\ inProgressTranscript s' = inProgressTranscript s.
Proof.
  cbv zeta. run_button. fold (transcript s). run_handler.
  change (truthy (analyzeInstructions ++ transcript s)) with true.
  simpl negb. cbv iota.
  destruct (on_call_gemini_api b _); repeat split; reflexivity.
Qed.

(** X13.  Submitting the query field empties it; the query is sent, once and
    followed by the Markdown request, only if the field was not empty, so an
    empty prompt never reaches the backend. *)
Theorem submit_query_outcome (b : Backend) (s : App) :
  let s' := fire (submitQuery b) s in
  generalQuery s' = ""
  /\ sendDisabled s' = true
  /\ (generalQuery s = "" ->
      invoked s' = invoked s /\ aiResponse s' = aiResponse s
      /\ status s' = status s)
  /\ (generalQuery s <> "" ->
      invoked s' =
        invoked s ++
        [call_gemini_api (generalQuery s ++ markdownRequest)%string]).
Proof.
  cbv zeta. run_button. run_handler.
  destruct (generalQuery s) as [|c q] eqn:Hq; simpl.
  - repeat split; congruence.
  - destruct (on_call_gemini_api b _); repeat split; congruence.
Qed.

Lemma submit_query_outcome_witness :
  invoked (fire (submitQuery backend_ok) initialApp) = []
  /\ invoked (fire (submitQuery backend_ok) (setGeneralQuery "why" initialApp))
     = [call_gemini_api ("why" ++ markdownRequest)%string].
Proof.
  split.
  - apply (proj1 (proj2 (proj2 (submit_query_outcome backend_ok initialApp)))).
    reflexivity.
  - apply (proj2 (proj2 (proj2 (submit_query_outcome backend_ok
                                  (setGeneralQuery "why" initialApp))))).
    discriminate.
Defined.

(** *** The drag handlers *)

Lemma console_record_console_lines (lines : list string) (s : App) :
  console (record_console_lines lines s) = console s ++ lines.
Proof.
  revert s. induction lines as [|line lines IH]; intro s; simpl.
  - now rewrite app_nil_r.
  - unfold record_console_lines in IH. rewrite IH. simpl.
    now rewrite <- app_assoc.
Qed.

(** X14.  Mouse-down and mouse-up on the bar, in any number and order, from
    any state and whatever the backend would answer, change nothing but the
    console, which receives one error line per event: no command is sent,
    so a click-through window is never made interactive for the drag, and
    the flag and the status line stay as they were.  The mouse-down handler
    resolves; the mouse-up handler rejects. *)
Theorem drag_events_only_log (events : list Event) (s : App) :
  forallb is_drag_event events = true ->
  run events s = record_console_lines (map drag_console_line events) s
  /\ console (run events s) = console s ++ map drag_console_line events
  /\ invoked (run events s) = invoked s
  /\ clickThrough (run events s) = clickThrough s
  /\ status (run events s) = status s
  /\ forall b render,
       fst (startDragWithClickThroughHandling b render (run events s)) = Ok tt
       /\ fst (stopDragRestoreClickThrough b render (run events s))
          = Err prevClickThroughRef_unbound.
Proof.
  intro Hdrag.
  assert (Hrun : run events s
                 = record_console_lines (map drag_console_line events) s).
  { revert s. induction events as [|e events IH]; intro s; [reflexivity|].
    simpl in Hdrag. apply andb_prop in Hdrag as [He Hdrag].
    rewrite run_cons, (IH Hdrag).
    destruct e; try discriminate; reflexivity. }
  assert (Hframe : forall lines s0,
            invoked (record_console_lines lines s0) = invoked s0
            /\ clickThrough (record_console_lines lines s0) = clickThrough s0
            /\ status (record_console_lines lines s0) = status s0).
  { induction lines as [|line lines IH]; intro s0; [repeat split|].
    apply (IH (record_console line s0)). }
  rewrite Hrun. split; [reflexivity|].
  split; [apply console_record_console_lines|].
  destruct (Hframe (map drag_console_line events) s) as (Hi & Hc & Hs).
  repeat split; assumption || reflexivity.
Qed.

Lemma drag_events_only_log_witness :
  invoked (run [DragStart backend_ok; DragEnd backend_ok] initialApp) = []
  /\ clickThrough (run [DragStart backend_ok; DragEnd backend_ok] initialApp)
     = true.
Proof.
  split.
  - refine (proj1 (proj2 (proj2
              (drag_events_only_log [DragStart backend_ok; DragEnd backend_ok]
                 initialApp _)))).
    reflexivity.
  - refine (proj1 (proj2 (proj2 (proj2
              (drag_events_only_log [DragStart backend_ok; DragEnd backend_ok]
                 initialApp _))))).
    reflexivity.
Defined.

(** *** The Listen/Stop buttons *)

(** X16.  Both Listen/Stop buttons run the recording toggle, so the
    transcript and the recording flag end up as the toggle leaves them.  The
    button in the bar also opens the panel on the transcript tab when it is
    pressed while not recording, whether or not the start then succeeds,
    and leaves panel and tab alone when it is pressed to stop; the pill in
    the panel always selects the transcript tab and never opens or closes
    the panel. *)
Theorem listen_buttons_outcome (b : Backend) (s : App) :
  let toggled := fire (handleToggleRecording b) s in
  let bar := fire (onClickListenButton b) s in
  let pill := fire (onClickListenPill b) s in
  (isRecording bar = isRecording toggled
   /\ finalizedTranscript bar = finalizedTranscript toggled
   /\ status bar = status toggled
   /\ listenLabel bar = listenLabel toggled)
  /\ (isRecording pill = isRecording toggled
      /\ finalizedTranscript pill = finalizedTranscript toggled
      /\ status pill = status toggled
      /\ activeTab pill = TabTranscript
      /\ widgetOpen pill = widgetOpen s)
  /\ (isRecording s = false ->
      widgetOpen bar = true /\ activeTab bar = TabTranscript)
  /\ (isRecording s = true ->
      widgetOpen bar = widgetOpen s /\ activeTab bar = activeTab s).
Proof.
  cbv zeta. unfold listenLabel. run_button. run_handler.
  destruct (isRecording s) eqn:Hrec; simpl.
  - destruct (on_stop_live_transcription b) as [[]|e]; simpl;
      [destruct (truthy (inProgressTranscript s)); simpl|];
      repeat split; try reflexivity; discriminate.
  - destruct (on_resolve_resource b "resources/whisper-stream.exe")
      as [exe|e1]; simpl;
      [destruct (on_resolve_resource b "resources/models/ggml-base.en.bin")
         as [model|e2]; simpl;
       [destruct (on_start_live_transcription b exe model) as [[]|e3];
        simpl|]|];
      repeat split; try reflexivity; discriminate.
Qed.

Lemma listen_buttons_outcome_witness :
  widgetOpen
    (fire (onClickListenButton (backend_down "offline"))
       (setWidgetOpen false initialApp)) = true
  /\ widgetOpen
       (fire (onClickListenButton backend_ok)
          (setWidgetOpen false session_hello)) = false.
Proof.
  split.
  - apply (proj1 (proj2 (proj2 (listen_buttons_outcome
                                  (backend_down "offline")
                                  (setWidgetOpen false initialApp))))).
    reflexivity.
  - apply (proj2 (proj2 (proj2 (listen_buttons_outcome backend_ok
                                  (setWidgetOpen false session_hello))))).
    reflexivity.
Defined.

(** *** Final events in a row *)

(** X17.  Final events accumulate in arrival order and empty ones are
    dropped: after any non-empty series of final events the finalized
    transcript is the old one followed by the non-empty texts of the series,
    the in-progress line is empty and no pause task is pending. *)
Theorem finals_accumulate (texts : list string) (s : App) :
  finalizedTranscript (run (map FinalTranscription texts) s)
  = finalizedTranscript s ++ List.filter truthy texts
  /\ (texts <> [] ->
      inProgressTranscript (run (map FinalTranscription texts) s) = ""
      /\ speechPauseTimer (run (map FinalTranscription texts) s) = None).
Proof.
  revert s. induction texts as [|text texts IH]; intro s.
  - simpl. rewrite app_nil_r. split; [reflexivity|congruence].
  - simpl map. rewrite run_cons.
    change (step (FinalTranscription text) s)
      with (on_final_transcription text s).
    destruct (IH (on_final_transcription text s)) as [Hf Hrest]. split.
    + rewrite Hf. unfold on_final_transcription. simpl List.filter.
      destruct (truthy text); simpl; [now rewrite <- app_assoc|reflexivity].
    + intros _. destruct texts as [|next texts].
      * split; reflexivity.
      * apply Hrest. discriminate.
Qed.

Lemma finals_accumulate_witness :
  inProgressTranscript
    (run (map FinalTranscription ["one"; ""; "two"]) session_hello) = "".
Proof.
  refine (proj1 (proj2 (finals_accumulate ["one"; ""; "two"] session_hello)
                   _)).
  discriminate.
Defined.

(** *** The pause window with other events in it *)

Lemma keeps_pause_window_cases (e : Event) :
  keeps_pause_window e = true ->
  (exists ms, e = Idle ms) \/ is_transcript_event e = false.
Proof.
  destruct e; simpl; intro H; try discriminate;
    (left; eexists; reflexivity) || (right; reflexivity).
Qed.

Lemma idle_time_cons (e : Event) (events : list Event) :
  idle_time (e :: events)
  = match e with Idle ms => ms | _ => 0 end + idle_time events.
Proof. reflexivity. Qed.

(** With no task pending, events other than interim, final and Listen/Stop
    leave the transcript and the timer alone. *)
Lemma run_without_pending (events : list Event) (s : App) :
  speechPauseTimer s = None ->
  forallb keeps_pause_window events = true ->
  finalizedTranscript (run events s) = finalizedTranscript s
  /\ inProgressTranscript (run events s) = inProgressTranscript s
  /\ speechPauseTimer (run events s) = None.
Proof.
  revert s. induction events as [|e events IH]; intros s Hnone Hall;
    [repeat split; assumption || reflexivity|].
  simpl in Hall. apply andb_prop in Hall as [He Hall]. rewrite run_cons.
  destruct (keeps_pause_window_cases e He) as [[ms ->] | Hside].
  - simpl step. rewrite (elapse_idle ms s Hnone). apply IH; assumption.
  - destruct (step_window_side e s Hside) as (Hf & Hi & Ht & _).
    destruct (IH (step e s)) as (Hf' & Hi' & Ht');
      [congruence|assumption|].
    repeat split; congruence.
Qed.

(** A pending task under such events: it fires once the silence among them
    adds up to its delay, and only then. *)
Lemma run_with_pending (events : list Event) (delay : nat) (text : string)
    (s : App) :
  text <> "" -> 0 < delay ->
  speechPauseTimer s = Some (delay, text) ->
  forallb keeps_pause_window events = true ->
  (delay <= idle_time events ->
   finalizedTranscript (run events s) = finalizedTranscript s ++ [text]
   /\ inProgressTranscript (run events s) = ""
   /\ speechPauseTimer (run events s) = None)
  /\ (idle_time events < delay ->
      finalizedTranscript (run events s) = finalizedTranscript s
      /\ inProgressTranscript (run events s) = inProgressTranscript s
      /\ speechPauseTimer (run events s)
         = Some (delay - idle_time events, text)).
Proof.
  intros Hne. revert delay s.
  induction events as [|e events IH]; intros delay s Hpos Htimer Hall.
  - change (idle_time []) with 0. split; intro Hd; [lia|].
    rewrite Nat.sub_0_r. repeat split; assumption || reflexivity.
  - simpl in Hall. apply andb_prop in Hall as [He Hall].
    rewrite run_cons, idle_time_cons.
    destruct (keeps_pause_window_cases e He) as [[ms ->] | Hside].
    + simpl step. destruct (le_lt_dec delay ms) as [Hle|Hlt].
      * rewrite (elapse_fire ms delay text s Htimer Hle).
        unfold pauseCallback. rewrite (truthy_of_nonempty text Hne).
        split; intro Hd; [|lia].
        apply run_without_pending; [reflexivity|exact Hall].
      * rewrite (elapse_wait ms delay text s Htimer Hlt).
        destruct (IH (delay - ms)
                    (set_speechPauseTimer (Some (delay - ms, text)) s))
          as [Hfire Hwait]; [lia|reflexivity|exact Hall|].
        split; intro Hd.
        -- apply Hfire. lia.
        -- destruct Hwait as (Hf & Hi & Ht); [lia|].
           rewrite Hf, Hi, Ht. repeat split. do 2 f_equal. lia.
    + destruct (step_window_side e s Hside) as (Hf & Hi & Ht & _).
      destruct (IH delay (step e s)) as [Hfire Hwait];
        [exact Hpos|congruence|exact Hall|].
      assert (Hzero : match e with Idle ms => ms | _ => 0 end = 0)
        by (destruct e; try reflexivity; discriminate).
      rewrite Hzero. simpl. rewrite <- Hf, <- Hi. split; assumption.
Qed.

(** X19.  After an interim event with a non-empty text, whatever else
    happens (backend pushes, click-through toggles, AI queries, drag
    events), as long as no interim event, no final event and no press on
    Listen/Stop arrives: while the silence adds up to less than 1500 ms
    nothing is committed and the task stays pending; once it adds up to
    1500 ms the text has been moved into the finalized transcript exactly
    once, and no further such events, silence included, commit it again. *)
Theorem pause_timer_commits_once (text : string) (events more : list Event)
    (s : App) :
  text <> "" ->
  forallb keeps_pause_window events = true ->
  forallb keeps_pause_window more = true ->
  let s' := run events (on_new_transcription text s) in
  (idle_time events < pauseDelay ->
   finalizedTranscript s' = finalizedTranscript s
   /\ inProgressTranscript s' = text
   /\ speechPauseTimer s' = Some (pauseDelay - idle_time events, text))
  /\ (pauseDelay <= idle_time events ->
      (finalizedTranscript s' = finalizedTranscript s ++ [text]
       /\ inProgressTranscript s' = ""
       /\ speechPauseTimer s' = None)
      /\ finalizedTranscript (run more s') = finalizedTranscript s ++ [text]
      /\ inProgressTranscript (run more s') = ""
      /\ speechPauseTimer (run more s') = None).
Proof.
  intros Hne Hevents Hmore. cbv zeta.
  destruct (run_with_pending events pauseDelay text
              (on_new_transcription text s) Hne)
    as [Hfire Hwait];
    [unfold pauseDelay; lia|reflexivity|exact Hevents|].
  split; intro Hd.
  - apply Hwait, Hd.
  - destruct (Hfire Hd) as (Hf & Hi & Ht). split; [auto|].
    destruct (run_without_pending more _ Ht Hmore) as (Hf' & Hi' & Ht').
    rewrite Hf', Hi', Hf, Hi. auto.
Qed.

Lemma pause_timer_commits_once_witness :
  finalizedTranscript
    (run [DragStart backend_ok; Idle 5000]
       (run [Idle 700; ClickThroughToggled false; AskGemini "why" backend_ok;
             Idle 800]
          (on_new_transcription "testing one two" initialApp)))
  = finalizedTranscript initialApp ++ ["testing one two"]
  /\ speechPauseTimer
       (run [Idle 700; ToggleClickThrough backend_ok; Idle 799]
          (on_new_transcription "testing one two" initialApp))
     = Some (pauseDelay
             - idle_time [Idle 700; ToggleClickThrough backend_ok; Idle 799],
             "testing one two").
Proof.
  assert (Hne : "testing one two" <> "") by discriminate.
  split.
  - destruct (pause_timer_commits_once "testing one two"
                [Idle 700; ClickThroughToggled false;
                 AskGemini "why" backend_ok; Idle 800]
                [DragStart backend_ok; Idle 5000] initialApp
                Hne eq_refl eq_refl) as [_ Hfired].
    destruct Hfired as (_ & Hmore & _); [vm_compute; lia|].
    exact Hmore.
  - destruct (pause_timer_commits_once "testing one two"
                [Idle 700; ToggleClickThrough backend_ok; Idle 799]
                [] initialApp Hne eq_refl eq_refl) as [Hpending _].
    destruct Hpending as (_ & _ & Htimer); [vm_compute; lia|].
    exact Htimer.
Defined.
